(** * The automatic spider generator of alltheplaces

    A shallow embedding of [locations/automatic_spider_generator.py]: the
    code synthesizer ([generate_spider_code],
    [generate_spider_attributes_code]), the two protocol defaults
    ([storefinder_exists], [extract_spider_attributes]) and the
    declaration hook ([__init_subclass__]).

    Two smaller programs of the repository follow it: the second callback
    of the Poczta Polska spider ([parse2]) and the script that rebuilds
    the run history ([ci/restore_history.py]). *)

From Stdlib Require Import Ascii String.
From stdpp Require Import base option list sorting gmap strings.

Set Warnings "-register-all".
Open Scope string_scope.
Open Scope list_scope.

(** ** Python values

    Strings are byte strings (UTF-8): the byte-wise lexicographic order of
    [String.compare] coincides with Python's code point order on [str].
    Dictionaries are objects with identity and live in the heap; every
    other value the generator meets is immutable or is never mutated by
    it, and is carried by value. *)

Definition loc := positive.

Inductive value :=
  | VNone
  | VBool (b : bool)
  | VInt (n : Z)
  | VStr (s : string)
  (** a list or a tuple: has [__len__] and can be iterated *)
  | VSeq (xs : list value)
  (** a [dict] object, by reference *)
  | VDict (l : loc)
  (** a function object, such as a method defined in a class body *)
  | VFunc (name : string)
  (** a class object used as a value (as in [container = dict]) that
      cannot itself be iterated: its metaclass is [type] or, like it,
      defines no [__iter__]; [sized] tells whether the class defines
      [__len__], which [hasattr] then finds on the class object itself *)
  | VType (sized : bool)
  (** an object of another kind, which offers the generator nothing but
      its truth value, whether it has [__len__], and the elements that
      iterating it yields, the same every time ([None] when it cannot be
      iterated); it has no attribute [items] and takes no item
      assignment.  An instance that defines nothing but [__len__] is
      sized and not iterable; an [Enum] class, whose metaclass defines
      [__len__] and [__iter__], is sized and yields its members. *)
  | VObj (truth sized : bool) (elems : option (list value)).

(** A [dict] keeps its items in insertion order.  Keys are strings. *)
Abbreviation dict := (list (string * value)).

Fixpoint dict_get (k : string) (d : dict) : option value :=
  match d with
  | [] => None
  | (k', v) :: d' => if decide (k = k') then Some v else dict_get k d'
  end.

(** [k in d] *)
Definition dict_has (k : string) (d : dict) : bool :=
  bool_decide (is_Some (dict_get k d)).

(** [d[k] = v]: an existing key keeps its position, a new key goes last. *)
Fixpoint dict_set (k : string) (v : value) (d : dict) : dict :=
  match d with
  | [] => [(k, v)]
  | (k', v') :: d' =>
      if decide (k = k') then (k, v) :: d' else (k', v') :: dict_set k v d'
  end.

(** [d.update(other)] *)
Definition dict_update (d other : dict) : dict :=
  foldl (λ acc kv, dict_set kv.1 kv.2 acc) d other.

(** [{k: v for k, v in items}] and [dict(items)] *)
Definition dict_comp (items : list (string * value)) : dict :=
  dict_update [] items.

(** The keys of a well-formed dict are pairwise distinct. *)
Definition dict_wf (d : dict) : Prop := NoDup d.*1.

(** ** Classes

    A class object as the generator reads it: [__name__], [__module__],
    [__bases__], the rest of [__mro__] (the class itself left out) and
    its own namespace [vars(cls)].  The hook writes the namespace of the
    class under declaration only, which no other class refers to yet, so
    classes are carried by value; the dicts they share are references
    into the heap. *)

Inductive class_obj := Class {
  cls_name : string;
  cls_module : string;
  cls_bases : list class_obj;
  cls_mro : list class_obj;
  cls_dict : dict
}.

(** Attribute lookup on a class: its own namespace, then its MRO. *)
Fixpoint mro_lookup (k : string) (ds : list dict) : option value :=
  match ds with
  | [] => None
  | d :: ds' =>
      match dict_get k d with Some v => Some v | None => mro_lookup k ds' end
  end.

Definition cls_getattr (cls : class_obj) (k : string) : option value :=
  mro_lookup k (cls_dict cls :: (cls_dict <$> cls_mro cls)).

(** The names under which [setattr] on a class is a plain write into the
    namespace of the class.  What [type] and [object] handle themselves
    ([__name__], [__qualname__], [__module__], [__bases__], [__mro__],
    [__dict__], [__class__] and the like) goes by names that start with
    two underscores; classes are of metaclass [type]. *)
Definition ordinary_name (k : string) : bool := negb (String.prefix "__" k).

(** [setattr(cls, k, v)] for an ordinary name [k]: a write into the
    class's own namespace.  Under a name that is not ordinary Python
    renames the class, changes its bases, or raises; this is left out,
    and every statement below on what the class is after such writes
    takes the names to be ordinary. *)
Definition cls_setattr (cls : class_obj) (k : string) (v : value) : class_obj :=
  Class (cls_name cls) (cls_module cls) (cls_bases cls) (cls_mro cls)
        (dict_set k v (cls_dict cls)).

(** ** Effects: the heap of dict objects, and exceptions *)

Inductive exn := TypeError | AttributeError.

Inductive result (A : Type) :=
  | Ok (a : A)
  | Raise (e : exn).
Arguments Ok {A} a.
Arguments Raise {A} e.

Definition result_map {A B} (f : A → B) (r : result A) : result B :=
  match r with Ok a => Ok (f a) | Raise e => Raise e end.

Abbreviation heap := (gmap loc dict).

(** A computation reads and writes the heap and may raise; what it wrote
    before raising stays written. *)
Definition M (A : Type) : Type := heap → result A * heap.

Definition ret {A} (a : A) : M A := λ h, (Ok a, h).
Definition raise {A} (e : exn) : M A := λ h, (Raise e, h).
Definition bind {A B} (m : M A) (f : A → M B) : M B :=
  λ h, match m h with
       | (Ok a, h') => f a h'
       | (Raise e, h') => (Raise e, h')
       end.

Notation "'do' x <- m ; k" := (bind m (λ x, k))
  (at level 10, x name, m at level 100, k at level 200).

(** The items of the dict at [l]; a location never written holds no items. *)
Definition deref (h : heap) (l : loc) : dict := default [] (h !! l).

Definition read_dict (l : loc) : M dict := λ h, (Ok (deref h l), h).
Definition write_dict (l : loc) (d : dict) : M unit := λ h, (Ok tt, <[l := d]> h).
(** [{}]: a new dict object *)
Definition alloc_dict (d : dict) : M loc :=
  λ h, let l := fresh (dom h) in (Ok l, <[l := d]> h).

Fixpoint foldM {A B} (f : A → B → M A) (a : A) (bs : list B) : M A :=
  match bs with
  | [] => ret a
  | b :: bs' => do a' <- f a b; foldM f a' bs'
  end.

(** ** Inspecting values *)

Definition is_none (v : value) : bool :=
  match v with VNone => true | _ => false end.

(** [hasattr(v, "__len__")] *)
Definition has_len (v : value) : bool :=
  match v with
  | VStr _ | VSeq _ | VDict _ => true
  | VType sized => sized
  | VObj _ sized _ => sized
  | VNone | VBool _ | VInt _ | VFunc _ => false
  end.

(** [for v2 in v] on a value that is neither a dict nor a string: a
    sequence yields its elements, an iterable object what it yields, and
    iterating anything else raises [TypeError]. *)
Definition iterate (v : value) : M (list value) :=
  match v with
  | VSeq xs => ret xs
  | VObj _ _ (Some xs) => ret xs
  | _ => raise TypeError
  end.

(** [bool(v)]; the truth value of a dict depends on its current items. *)
Definition truthy_in (h : heap) (v : value) : bool :=
  match v with
  | VNone => false
  | VBool b => b
  | VInt n => bool_decide (n ≠ 0%Z)
  | VStr s => bool_decide (s ≠ EmptyString)
  | VSeq xs => bool_decide (xs ≠ [])
  | VDict l => bool_decide (deref h l ≠ [])
  | VFunc _ => true
  | VType _ => true
  | VObj truth _ _ => truth
  end.

Definition truthy (v : value) : M bool := λ h, (Ok (truthy_in h v), h).

(** ** Text pieces *)

Definition nl : string := String "010"%char EmptyString.
Definition tab : string := String "009"%char EmptyString.
Definition dquote : string := String "034"%char EmptyString.

(** ** The code synthesizer *)

(** Body of the loop over the items of a dict-valued attribute. *)
Definition render_dict_entry (code : string) (kv : string * value) : string :=
  match kv.2 with
  | VStr v2 =>
      code +:+ nl +:+ tab +:+ tab +:+ kv.1 +:+ " = " +:+ dquote +:+ v2 +:+ dquote +:+ ","
  | _ => code
  end.

(** Body of the loop over the elements of a sized attribute. *)
Definition render_seq_entry (code : string) (v2 : value) : string :=
  match v2 with
  | VStr s => code +:+ nl +:+ tab +:+ tab +:+ dquote +:+ s +:+ dquote +:+ ","
  | _ => code
  end.

(** Body of the loop over [spider_attributes_sorted.items()]. *)
Definition render_attribute (code : string) (kv : string * value) : M string :=
  let '(k, v) := kv in
  match v with
  | VDict l =>
      let code := code +:+ nl +:+ tab +:+ k +:+ " = {" in
      do items <- read_dict l;
      let code := foldl render_dict_entry code items in
      ret (code +:+ nl +:+ tab +:+ "}")
  | VStr s =>
      ret (code +:+ nl +:+ tab +:+ k +:+ " = " +:+ dquote +:+ s +:+ dquote)
  | _ =>
      if has_len v then
        let code := code +:+ nl +:+ tab +:+ k +:+ " = [" in
        do elems <- iterate v;
        let code := foldl render_seq_entry code elems in
        ret (code +:+ nl +:+ tab +:+ "]")
      else ret code
  end.

(** [sorted(d.items())]: items are compared as tuples, key first.  The keys
    of a dict are pairwise distinct, so the comparison never reaches the
    values. *)
Definition item_le (a b : string * value) : Prop := String.le a.1 b.1.

Global Instance item_le_dec : RelDecision item_le.
Proof. intros a b. unfold item_le. apply _. Defined.

Definition sorted_items (d : dict) : list (string * value) :=
  merge_sort item_le d.

Definition default_sort_order : list string :=
  ["name"; "item_attributes"; "allowed_domains"; "start_urls"].

(** [{k: d[k] for k in ks if cond}]: the items selected from [d]. *)
Definition select (d : dict) (ks : list string) : list (string * value) :=
  omap (λ k, pair k <$> dict_get k d) ks.

Definition kept (kv : string * value) : bool :=
  negb (String.prefix "_" kv.1) && negb (is_none kv.2).

Definition spider_attributes (spider : class_obj) : dict :=
  dict_comp (filter (λ kv, kept kv) (cls_dict spider)).

Definition spider_attributes_sorted
    (spider : class_obj) (sort_order : list string) : dict :=
  let attrs := spider_attributes spider in
  let first :=
    dict_comp (select attrs (filter (λ k, dict_has k attrs) sort_order)) in
  let others :=
    dict_comp (select attrs
      (filter (λ k, k ∉ sort_order) (dict_comp (sorted_items attrs)).*1)) in
  dict_update first others.

Definition generate_spider_attributes_code
    (spider : class_obj) (sort_order : list string) : M string :=
  foldM render_attribute EmptyString (spider_attributes_sorted spider sort_order).

Definition generate_spider_code (spider : class_obj) : M string :=
  let '(imports_list, superclasses) :=
    foldl (λ '(imports_list, superclasses) spider_base,
             (imports_list +:+ "from " +:+ cls_module spider_base +:+ " import "
                +:+ cls_name spider_base +:+ nl,
              (superclasses ++ [cls_name spider_base])%list))
          (EmptyString, @nil string) (cls_bases spider) in
  let superclasses_list := String.concat ", " superclasses in
  do attributes <- generate_spider_attributes_code spider default_sort_order;
  ret (imports_list +:+ nl +:+ nl +:+ "class " +:+ cls_name spider +:+ "("
         +:+ superclasses_list +:+ "):" +:+ attributes).

(** ** The protocol defaults *)

(** A follow-up request: where to go, the name of the method that takes
    the response ([meta["next_detection_method"]] or
    [meta["next_extraction_method"]]), and the attributes extracted so
    far ([meta["extracted_attributes"]]). *)
Record Request := {
  req_url : string;
  req_next : string;
  req_extracted : dict
}.

Record Response := {
  resp_url : string;
  resp_body : string
}.

(** [bool | Request] *)
Inductive detection :=
  | Verdict (b : bool)
  | Probe (request : Request).

(** [dict | Request]; the dict returned is a new object on every call and
    is carried by value. *)
Inductive extraction :=
  | Attributes (d : dict)
  | Fetch (request : Request).

Definition storefinder_exists (response : Response) : M detection :=
  ret (Verdict false).

Definition extract_spider_attributes (response : Response) : M extraction :=
  ret (Attributes []).

(** ** The declaration hook *)

(** [k in kwargs.keys() and kwargs[k]]: the value bound to [k], when there
    is one and it is truthy. *)
Definition kw_given (kwargs : dict) (k : string) : M (option value) :=
  match dict_get k kwargs with
  | Some v => do b <- truthy v; ret (if b : bool then Some v else None)
  | None => ret None
  end.

(** [if not hasattr(cls, "item_attributes"): cls.item_attributes = {}] *)
Definition ensure_item_attributes (cls : class_obj) : M class_obj :=
  match cls_getattr cls "item_attributes" with
  | Some _ => ret cls
  | None =>
      do l <- alloc_dict [];
      ret (cls_setattr cls "item_attributes" (VDict l))
  end.

(** [cls.item_attributes[k] = v]: only a dict takes a string subscript. *)
Definition item_attributes_setitem
    (cls : class_obj) (k : string) (v : value) : M unit :=
  match cls_getattr cls "item_attributes" with
  | Some (VDict l) => do d <- read_dict l; write_dict l (dict_set k v d)
  | Some _ => raise TypeError
  | None => raise AttributeError
  end.

(** The brand block and the operator block of the hook, which differ in
    their two key names only. *)
Definition fold_wikidata
    (wikidata label : string) (cls : class_obj) (kwargs : dict) : M class_obj :=
  do given <- kw_given kwargs wikidata;
  match given with
  | Some q =>
      do cls <- ensure_item_attributes cls;
      do _ <- item_attributes_setitem cls wikidata q;
      do given <- kw_given kwargs label;
      match given with
      | Some text => do _ <- item_attributes_setitem cls label text; ret cls
      | None => ret cls
      end
  | None => ret cls
  end.

(** [for k, v in kwargs["extracted_attributes"].items(): setattr(cls, k, v)].
    Of the values, only a dict has [items]; on any other the call raises:
    [AttributeError] for want of the attribute, which is the case of
    every value but a class that defines a method [items] (the class
    [dict] itself), where it is [TypeError] for want of an argument.  The
    model does not tell such a class from another and raises
    [AttributeError]; no statement below names the exception of this
    step. *)
Definition set_extracted (cls : class_obj) (extracted : value) : M class_obj :=
  match extracted with
  | VDict l =>
      do items <- read_dict l;
      ret (foldl (λ cls kv, cls_setattr cls kv.1 kv.2) cls items)
  | _ => raise AttributeError
  end.

Definition __init_subclass__ (cls : class_obj) (kwargs : dict) : M class_obj :=
  do cls <- fold_wikidata "brand_wikidata" "brand" cls kwargs;
  do cls <- fold_wikidata "operator_wikidata" "operator" cls kwargs;
  do given <- kw_given kwargs "spider_key";
  let cls := match given with
             | Some key => cls_setattr cls "name" key
             | None => cls
             end in
  do given <- kw_given kwargs "extracted_attributes";
  match given with
  | Some extracted => set_extracted cls extracted
  | None => ret cls
  end.

(** The class statement, with its bases, keyword arguments and body: Python
    builds the class object from the namespace of the body and then calls
    the hook, once. *)
Definition declare_class
    (name module : string) (bases mro : list class_obj) (body kwargs : dict)
    : M class_obj :=
  __init_subclass__ (Class name module bases mro body) kwargs.

(** Rendering the same definition [n] times in a row. *)
Fixpoint render_times (n : nat) (spider : class_obj) : M (list string) :=
  match n with
  | 0 => ret []
  | S n' =>
      do text <- generate_spider_code spider;
      do texts <- render_times n' spider;
      ret (text :: texts)
  end.

(** ** Detection chains *)

(** Modelled from the spec: the dispatcher that drives a detection chain
    is not part of [automatic_spider_generator.py].  It calls a step on a
    response; a boolean verdict ends the chain; a request is fetched (one
    request in flight, the chain is sequential, the response is a
    successful one) and its response handed to the method that the
    continuation identifier of the request names, which answers to the
    same contract.  [fuel] bounds the number of requests followed;
    [None] says that the chain was still pending when it ran out. *)
Fixpoint run_detection
    (method_of : string → Response → M detection) (fetch : Request → Response)
    (fuel : nat) (step : Response → M detection) (response : Response)
    : M (option bool) :=
  do verdict <- step response;
  match verdict with
  | Verdict b => ret (Some b)
  | Probe request =>
      match fuel with
      | 0 => ret None
      | S fuel' =>
          run_detection method_of fetch fuel'
            (method_of (req_next request)) (fetch request)
      end
  end.

(** A chain of [n] steps from heap [h] to heap [h']: all but the last
    return a request, the last returns the verdict [b]. *)
Inductive detection_chain
    (method_of : string → Response → M detection) (fetch : Request → Response)
    (b : bool)
    : nat → (Response → M detection) → Response → heap → heap → Prop :=
  | chain_verdict step response h h' :
      step response h = (Ok (Verdict b), h') →
      detection_chain method_of fetch b 1 step response h h'
  | chain_probe n step response request h h1 h' :
      step response h = (Ok (Probe request), h1) →
      detection_chain method_of fetch b n
        (method_of (req_next request)) (fetch request) h1 h' →
      detection_chain method_of fetch b (S n) step response h h'.

(** ** Python strings as sequences of code points

    The two scripts below slice strings by position, which Python counts
    in code points: here a string is the list of its code points, and the
    literals of the source, all ASCII, are written with [lit]. *)

Module PyStr.

Abbreviation text := (list N).

Definition lit (s : string) : text := N_of_ascii <$> list_ascii_of_string s.

(** [s[lo:-m]], for the non-negative [lo] and the negative [-m] that the
    sources use: an empty string when the two bounds meet or cross. *)
Definition slice {A} (lo m : nat) (s : list A) : list A :=
  drop lo (take (length s - m) s).

(** [s.split(sep)] for a non-empty [sep]: the pieces between the
    occurrences of [sep], found from the left and without overlap.
    [skip] counts the characters of an occurrence still to pass. *)
Fixpoint split_go {A} `{EqDecision A}
    (sep : list A) (skip : nat) (s : list A) : list (list A) :=
  match s with
  | [] => [[]]
  | c :: s' =>
      match skip with
      | S n => split_go sep n s'
      | 0 =>
          if decide (sep `prefix_of` s)
          then [] :: split_go sep (length sep - 1) s'
          else match split_go sep 0 s' with
               | piece :: pieces => (c :: piece) :: pieces
               | [] => [[c]]
               end
      end
  end.

Definition split {A} `{EqDecision A} (sep s : list A) : list (list A) :=
  split_go sep 0 s.

(** [s.replace(old, new)] for a non-empty [old]. *)
Fixpoint replace_go {A} `{EqDecision A}
    (old new : list A) (skip : nat) (s : list A) : list A :=
  match s with
  | [] => []
  | c :: s' =>
      match skip with
      | S n => replace_go old new n s'
      | 0 =>
          if decide (old `prefix_of` s)
          then new ++ replace_go old new (length old - 1) s'
          else c :: replace_go old new 0 s'
      end
  end.

Definition replace {A} `{EqDecision A} (old new s : list A) : list A :=
  replace_go old new 0 s.

(** [s.rsplit(c, 1)] for a separator [c] of one character: [s] cut at the
    last [c], or [s] alone when it has none. *)
Fixpoint rsplit1 {A} `{EqDecision A} (c : A) (s : list A) : list (list A) :=
  match s with
  | [] => [[]]
  | x :: s' =>
      match rsplit1 c s' with
      | [before; after] => [x :: before; after]
      | _ => if decide (x = c) then [[]; s'] else [x :: s']
      end
  end.

(** [sep.join(pieces)] *)
Fixpoint join {A} (sep : list A) (pieces : list (list A)) : list A :=
  match pieces with
  | [] => []
  | [piece] => piece
  | piece :: pieces' => piece ++ sep ++ join sep pieces'
  end.

End PyStr.

(** ** The spider of Poczta Polska: [parse2]

    [locations/spiders/poczta_polska_pl.py].  [parse2] is given the two
    paragraphs that its XPath queries select ([None] when a query selects
    nothing) and the item carried by the request.  The five fields that
    it sets are fields that the item class declares, so the assignments
    themselves do not raise; an exception leaves [parse2] before the item
    is yielded. *)

Module PocztaPolska.
Import PyStr.

Inductive error := TypeError | ValueError | IndexError.

Inductive outcome (A : Type) :=
  | Returns (a : A)
  | Raises (e : error).
Arguments Returns {A} a.
Arguments Raises {A} e.

(** A field of an item holds a string or something else (a number, a
    mapping), which [parse2] does not look at. *)
Inductive field_value :=
  | Text (t : text)
  | Other (n : N).

(** The item, as the mapping of the fields that are set. *)
Abbreviation item := (list (string * field_value)).

(** [item[k] = v] *)
Fixpoint item_set (k : string) (v : field_value) (it : item) : item :=
  match it with
  | [] => [(k, v)]
  | (k', v') :: it' =>
      if decide (k = k') then (k, v) :: it' else (k', v') :: item_set k v it'
  end.

Fixpoint item_get (k : string) (it : item) : option field_value :=
  match it with
  | [] => None
  | (k', v) :: it' => if decide (k = k') then Some v else item_get k it'
  end.

(** [a, b = pieces] *)
Definition unpack2 (pieces : list text) : outcome (text * text) :=
  match pieces with
  | [a; b] => Returns (a, b)
  | _ => Raises ValueError
  end.

Definition parse2 (phones address : option text) (it : item) : outcome item :=
  match phones with
  | None => Raises TypeError
  | Some p =>
      let it :=
        item_set "phone"
          (Text (replace (lit "<br>") (lit ";")
                   (replace (lit " ") [] (slice 3 4 p)))) it in
      match address with
      | None => Raises TypeError
      | Some a =>
          let addr := split (lit "<br>") (slice 3 4 a) in
          match unpack2 (rsplit1 32%N (default [] (addr !! 0%nat))) with
          | Raises e => Raises e
          | Returns (street, housenumber) =>
              let it := item_set "street" (Text street) it in
              let it := item_set "housenumber" (Text housenumber) it in
              match addr !! 1%nat with
              | None => Raises IndexError
              | Some line =>
                  match unpack2 (split (lit " ") line) with
                  | Raises e => Raises e
                  | Returns (postcode, city) =>
                      let it := item_set "postcode" (Text postcode) it in
                      let it := item_set "city" (Text city) it in
                      Returns it
                  end
              end
          end
      end
  end.

End PocztaPolska.

(** ** Rebuilding the run history: [ci/restore_history.py]

    The script lists the run directories of the bucket and asks S3, for
    every run, whether its two statistics files are there.  What S3
    answers and what [datetime] parses lie outside the script: they are
    the parameters [head_object], [strptime] and [strftime] below, and the
    script is given what [result.search("CommonPrefixes")] yields, in
    order.  The paginator asks S3 for one page at least; for a page with
    common prefixes it yields them one by one, each a mapping with its
    ["Prefix"], here [Some] of that string; for a page without any, as for
    an empty bucket, it yields [None] once.  The messages that the script
    prints are left out, and so is the JSON encoding of what it writes. *)

Module RestoreHistory.
Import PyStr.

(** What a call to [head_object] does: it returns, it raises
    [ClientError], or it raises something else. *)
Inductive head_answer := Found | NotFound | Failed.

Inductive error :=
  | AttributeError (* raised by [prefix.get] when [prefix] is [None] *)
  | S3Error        (* raised by [head_object], other than [ClientError] *)
  | ValueError.    (* raised by [strptime] *)

Inductive outcome (A : Type) :=
  | Returns (a : A)
  | Raises (e : error).
Arguments Returns {A} a.
Arguments Raises {A} e.

(** The dict [run_data], in the order in which its keys are set. *)
Abbreviation run_data := (list (string * text)).

Fixpoint set_field (k : string) (v : text) (d : run_data) : run_data :=
  match d with
  | [] => [(k, v)]
  | (k', v') :: d' =>
      if decide (k = k') then (k, v) :: d' else (k', v') :: set_field k v d'
  end.

Fixpoint get_field (k : string) (d : run_data) : option text :=
  match d with
  | [] => None
  | (k', v) :: d' => if decide (k = k') then Some v else get_field k d'
  end.

Definition bucket_name : text := lit "alltheplaces.openaddresses.io".

(** The values of [latest_element] and [history_elements]. *)
Abbreviation state := (option run_data * list run_data)%type.

Section script.
Context {datetime : Type}.
Variable head_object : text → text → head_answer.
Variable strptime : text → option datetime.
Variable strftime : datetime → text.

Definition object_exists (bucket key : text) : outcome bool :=
  match head_object bucket key with
  | Found => Returns true
  | NotFound => Returns false
  | Failed => Raises S3Error
  end.

(** The body of the loop, for one element of the listing. *)
Definition process (st : state) (prefix : option text) : outcome state :=
  match prefix with
  | None => Raises AttributeError
  | Some run_id_prefix =>
      let run_id := slice 5 1 run_id_prefix in
      if decide (run_id = lit "latest") then Returns st
      else
        let run_data :=
          [("run_id", run_id);
           ("output_url",
            lit "https://data.alltheplaces.xyz/runs/" ++ run_id
              ++ lit "/output.tar.gz")] in
        let stats_suffix := lit "runs/" ++ run_id ++ lit "/stats/_results.json" in
        match object_exists bucket_name stats_suffix with
        | Raises e => Raises e
        | Returns stats =>
            let run_data :=
              if stats
              then set_field "stats_url"
                     (lit "https://data.alltheplaces.xyz/" ++ stats_suffix)
                     run_data
              else run_data in
            let insights_suffix :=
              lit "runs/" ++ run_id ++ lit "/stats/_insights.json" in
            match object_exists bucket_name insights_suffix with
            | Raises e => Raises e
            | Returns insights =>
                let run_data :=
                  if insights
                  then set_field "insights_url"
                         (lit "https://data.alltheplaces.xyz/"
                            ++ insights_suffix)
                         run_data
                  else run_data in
                match strptime run_id with
                | None => Raises ValueError
                | Some start_time =>
                    let run_data :=
                      set_field "start_time" (strftime start_time) run_data in
                    Returns (Some run_data, st.2 ++ [run_data])
                end
            end
        end
  end.

Fixpoint scan (st : state) (listing : list (option text)) : outcome state :=
  match listing with
  | [] => Returns st
  | prefix :: listing' =>
      match process st prefix with
      | Raises e => Raises e
      | Returns st' => scan st' listing'
      end
  end.

(** The script: it returns what it writes to [latest.json] ([None] is
    written as [null]) and to [history.json]; both files are written after
    the loop, so nothing is written when the loop raises. *)
Definition main (listing : list (option text)) : outcome state :=
  scan (None, []) listing.

(** The runs of a listing: the names cut out of its prefixes, without
    [latest]. *)
Definition run_ids (listing : list (option text)) : list text :=
  filter (.≠ lit "latest") (slice 5 1 <$> omap id listing).

(** A run that the loop gets through. *)
Definition run_ok (run_id : text) : Prop :=
  head_object bucket_name
    (lit "runs/" ++ run_id ++ lit "/stats/_results.json") ≠ Failed
  ∧ head_object bucket_name
      (lit "runs/" ++ run_id ++ lit "/stats/_insights.json") ≠ Failed
  ∧ is_Some (strptime run_id).

(** The entry of a run in the history. *)
Definition entry_of (run_id : text) (d : run_data) : Prop :=
  NoDup d.*1
  ∧ get_field "run_id" d = Some run_id
  ∧ get_field "output_url" d
    = Some (lit "https://data.alltheplaces.xyz/runs/" ++ run_id
              ++ lit "/output.tar.gz")
  ∧ get_field "stats_url" d
    = (if head_object bucket_name
            (lit "runs/" ++ run_id ++ lit "/stats/_results.json")
       is Found
       then Some (lit "https://data.alltheplaces.xyz/runs/" ++ run_id
                    ++ lit "/stats/_results.json")
       else None)
  ∧ get_field "insights_url" d
    = (if head_object bucket_name
            (lit "runs/" ++ run_id ++ lit "/stats/_insights.json")
       is Found
       then Some (lit "https://data.alltheplaces.xyz/runs/" ++ run_id
                    ++ lit "/stats/_insights.json")
       else None)
  ∧ get_field "start_time" d = strftime <$> strptime run_id.

End script.

End RestoreHistory.

(** ** Notions used in the statements *)

(** The text made of the given pieces, in order. *)
Definition pieces (l : list string) : string := foldr String.append EmptyString l.

(** Strict byte-wise lexicographic order on keys. *)
Definition key_lt (a b : string) : Prop := String.compare a b = Lt.

Definition dict_entry_line (kv : string * value) : string :=
  match kv.2 with
  | VStr v2 =>
      nl +:+ tab +:+ tab +:+ kv.1 +:+ " = " +:+ dquote +:+ v2 +:+ dquote +:+ ","
  | _ => EmptyString
  end.

Definition seq_entry_line (v2 : value) : string :=
  match v2 with
  | VStr s => nl +:+ tab +:+ tab +:+ dquote +:+ s +:+ dquote +:+ ","
  | _ => EmptyString
  end.

(** The lines of the attribute [kv] in heap [h], or the exception its
    rendering ends with. *)
Definition attribute_lines (h : heap) (kv : string * value) : result string :=
  match kv.2 with
  | VDict l =>
      Ok (nl +:+ tab +:+ kv.1 +:+ " = {"
            +:+ pieces (dict_entry_line <$> deref h l) +:+ nl +:+ tab +:+ "}")
  | VStr s => Ok (nl +:+ tab +:+ kv.1 +:+ " = " +:+ dquote +:+ s +:+ dquote)
  | VSeq xs =>
      Ok (nl +:+ tab +:+ kv.1 +:+ " = ["
            +:+ pieces (seq_entry_line <$> xs) +:+ nl +:+ tab +:+ "]")
  | VObj _ true (Some xs) =>
      Ok (nl +:+ tab +:+ kv.1 +:+ " = ["
            +:+ pieces (seq_entry_line <$> xs) +:+ nl +:+ tab +:+ "]")
  | VType true | VObj _ true None => Raise TypeError
  | VNone | VBool _ | VInt _ | VFunc _ | VType false | VObj _ false _ =>
      Ok EmptyString
  end.

(** A value that the synthesizer takes for an array and cannot iterate:
    neither a dict nor a string, it has [__len__], and iterating it
    raises. *)
Definition sized_not_iterable (v : value) : bool :=
  match v with
  | VType true | VObj _ true None => true
  | _ => false
  end.

Fixpoint result_mapM {A B} (f : A → result B) (l : list A) : result (list B) :=
  match l with
  | [] => Ok []
  | a :: l' =>
      match f a with
      | Ok b => result_map (cons b) (result_mapM f l')
      | Raise e => Raise e
      end
  end.

Definition import_line (base : class_obj) : string :=
  "from " +:+ cls_module base +:+ " import " +:+ cls_name base +:+ nl.

Definition class_header (spider : class_obj) : string :=
  nl +:+ nl +:+ "class " +:+ cls_name spider +:+ "("
    +:+ String.concat ", " (cls_name <$> cls_bases spider) +:+ "):".

(** [del d[k]] *)
Definition dict_delete (k : string) (d : dict) : dict :=
  filter (λ kv, kv.1 ≠ k) d.

(** The definition without its attribute [k]. *)
Definition without_attribute (spider : class_obj) (k : string) : class_obj :=
  Class (cls_name spider) (cls_module spider) (cls_bases spider) (cls_mro spider)
        (dict_delete k (cls_dict spider)).

(** The values that count as empty: [None], the empty string, the empty
    sequence and the empty dict. *)
Definition empty_equivalent (h : heap) (v : value) : bool :=
  match v with
  | VNone => true
  | VStr s => bool_decide (s = EmptyString)
  | VSeq xs => bool_decide (xs = [])
  | VDict l => bool_decide (deref h l = [])
  | VBool _ | VInt _ | VFunc _ | VType _ | VObj _ _ _ => false
  end.

(** The rule that a key bound to an empty value is not rendered. *)
Definition omitted_if_empty (spider : class_obj) (h : heap) (k : string) : Prop :=
  ∀ v, dict_get k (cls_dict spider) = Some v →
       empty_equivalent h v = true →
       k ∉ (spider_attributes_sorted spider default_sort_order).*1.

(** The value a keyword is given in heap [h]. *)
Definition kw_given_in (h : heap) (kwargs : dict) (k : string) : option value :=
  match dict_get k kwargs with
  | Some v => if truthy_in h v then Some v else None
  | None => None
  end.

(** What one block of the hook writes into the dict at [l]. *)
Definition fold_into (wikidata label : string) (kwargs : dict) (l : loc) (h : heap)
    : heap :=
  match kw_given_in h kwargs wikidata with
  | None => h
  | Some q =>
      let h1 := <[l := dict_set wikidata q (deref h l)]> h in
      match kw_given_in h1 kwargs label with
      | None => h1
      | Some text => <[l := dict_set label text (deref h1 l)]> h1
      end
  end.

(** No dict that holds items loses all of them. *)
Definition heap_grows (h h' : heap) : Prop :=
  ∀ l, deref h l ≠ [] → deref h' l ≠ [].

(** The last two steps of the hook: the rename and the extracted
    attributes. *)
Definition finish (cls : class_obj) (kwargs : dict) (h : heap)
    : result class_obj * heap :=
  let cls :=
    match kw_given_in h kwargs "spider_key" with
    | Some key => cls_setattr cls "name" key
    | None => cls
    end in
  match kw_given_in h kwargs "extracted_attributes" with
  | Some (VDict le) => (Ok (foldl (λ cls kv, cls_setattr cls kv.1 kv.2) cls (deref h le)), h)
  | Some _ => (Raise AttributeError, h)
  | None => (Ok cls, h)
  end.

(** The keys of the dict given as [extracted_attributes] are ordinary
    names. *)
Definition plain_extracted (h : heap) (kwargs : dict) : Prop :=
  ∀ le, dict_get "extracted_attributes" kwargs = Some (VDict le) →
        Forall (λ k, ordinary_name k = true) (deref h le).*1.

(** A later step of the same declaration binds [k] again. *)
Definition rebinds (h : heap) (kwargs : dict) (k : string) : Prop :=
  ∃ le, kw_given_in h kwargs "extracted_attributes" = Some (VDict le)
        ∧ k ∈ (deref h le).*1.

(** [v] is falsy and the hook cannot make it truthy: if it is an (empty)
    dict, it is a live object other than the [item_attributes] of [cls]. *)
Definition stable_falsy (cls : class_obj) (h : heap) (v : value) : Prop :=
  truthy_in h v = false
  ∧ ∀ l, v = VDict l →
         l ∈ dom h ∧ cls_getattr cls "item_attributes" ≠ Some (VDict l).

(** The enrichment without a proviso: whenever the hook returns, a truthy
    [brand_wikidata] is an item of the dict that [item_attributes] is, and
    a truthy [spider_key] is the [name] of the class. *)
Definition enrichment_unconditional
    (cls : class_obj) (kwargs : dict) (h : heap) : Prop :=
  ∀ cls' h',
    __init_subclass__ cls kwargs h = (Ok cls', h') →
    (∀ q, kw_given_in h kwargs "brand_wikidata" = Some q →
          ∃ l, cls_getattr cls' "item_attributes" = Some (VDict l)
               ∧ dict_get "brand_wikidata" (deref h' l) = Some q)
    ∧ (∀ key, kw_given_in h kwargs "spider_key" = Some key →
              cls_getattr cls' "name" = Some key).

(** The rule that the keyword [k], when bound to a falsy value, counts
    for nothing. *)
Definition falsy_keyword_ignored
    (cls : class_obj) (kwargs : dict) (h : heap) (k : string) : Prop :=
  ∀ v, dict_get k kwargs = Some v →
       truthy_in h v = false →
       __init_subclass__ cls kwargs h
       = __init_subclass__ cls (dict_delete k kwargs) h.

(** ** Example definitions *)

Definition scrapy_spider : class_obj := Class "Spider" "scraping_lib" [] [] [].

Definition acme_example_heap : heap :=
  {[ 1%positive := [("brand", VStr "Acme"); ("brand_wikidata", VStr "Q1")] ]}.

Definition acme_example : class_obj :=
  Class "acme_example" "locations.spiders.acme_example"
        [scrapy_spider] [scrapy_spider]
        [("__module__", VStr "locations.spiders.acme_example");
         ("start_urls", VSeq [VStr "https://acme.example/stores"]);
         ("requires_proxy", VBool true);
         ("zone", VStr "north");
         ("item_attributes", VDict 1%positive);
         ("parse", VFunc "parse");
         ("api_key", VStr "k1");
         ("allowed_domains", VSeq [VStr "acme.example"]);
         ("download_delay", VNone);
         ("name", VStr "acme_example")].

Definition private_and_none_spider : class_obj :=
  Class "S" "m" [] []
        [("name", VStr "s"); ("_key", VStr "k"); ("note", VNone)].

Definition sized_class_spider : class_obj :=
  Class "S" "m" [] [] [("name", VStr "s"); ("container", VType true)].

Definition generator_base : class_obj :=
  Class "AutomaticSpiderGenerator" "locations.automatic_spider_generator" [] [] [].

Definition acme_heap : heap :=
  {[ 1%positive := [("start_urls", VSeq [VStr "https://acme.example/stores"])] ]}.

Definition acme_kwargs : dict :=
  [("brand_wikidata", VStr "Q1"); ("brand", VStr "Acme");
   ("operator_wikidata", VStr "Q2"); ("operator", VStr "Acme Holding");
   ("spider_key", VStr "new_name"); ("extracted_attributes", VDict 1%positive)].

Definition acme_declaration : result class_obj * heap :=
  declare_class "AcmeSpider" "locations.spiders.acme"
    [generator_base] [generator_base] [("name", VStr "old_name")]
    acme_kwargs acme_heap.

Definition acme_class : class_obj :=
  match acme_declaration.1 with Ok cls => cls | Raise _ => generator_base end.

Definition chain_base : class_obj :=
  Class "AcmeBase" "locations.storefinders.acme" [generator_base] [generator_base]
        [("item_attributes", VDict 1%positive)].


Definition chain_child : class_obj :=
  Class "AcmeChild" "locations.spiders.acme_child"
        [chain_base] [chain_base; generator_base] [("name", VStr "acme_child")].

Definition chain_kwargs : dict := [("brand_wikidata", VStr "Q9")].

Definition falsy_heap : heap := {[ 1%positive := [] ]}.

Definition falsy_kwargs : dict :=
  [("spider_key", VStr EmptyString); ("brand_wikidata", VStr EmptyString);
   ("operator_wikidata", VNone); ("extracted_attributes", VDict 1%positive)].

(** A declaration whose extracted attributes bind [name] and
    [item_attributes] themselves. *)
Definition override_heap : heap :=
  {[ 1%positive := [("name", VStr "x"); ("item_attributes", VStr "str")] ]}.

Definition override_kwargs : dict :=
  [("brand_wikidata", VStr "Q1"); ("spider_key", VStr "new_name");
   ("extracted_attributes", VDict 1%positive)].

(** A class whose [item_attributes] is the empty dict at [1], declared
    with that same dict as its [extracted_attributes]. *)
Definition alias_class : class_obj :=
  Class "AcmeSpider" "locations.spiders.acme" [generator_base] [generator_base]
        [("item_attributes", VDict 1%positive)].

Definition alias_kwargs : dict :=
  [("brand_wikidata", VStr "Q1"); ("extracted_attributes", VDict 1%positive)].

Definition named_class : class_obj :=
  Class "AcmeSpider" "locations.spiders.acme" [generator_base] [generator_base]
        [("name", VStr "acme")].

Definition probe_again (response : Response) : M detection :=
  ret (Probe {| req_url := "https://acme.example/locator.json";
                req_next := "storefinder_exists";
                req_extracted := [] |}).

Definition confirm (response : Response) : M detection := ret (Verdict true).

Definition example_methods (name : string) : Response → M detection :=
  if decide (name = "confirm") then confirm else storefinder_exists.

Definition example_fetch (request : Request) : Response :=
  {| resp_url := req_url request; resp_body := EmptyString |}.

Definition home_page : Response :=
  {| resp_url := "https://acme.example/"; resp_body := EmptyString |}.

Definition shared_heap : heap :=
  {[ 1%positive := [("country", VStr "PL"); ("brand", VStr "Acme")] ]}.

Definition two_dict_heap : heap :=
  {[ 1%positive := [("brand", VStr "Acme")]; 2%positive := [("brand", VStr "Zenith")] ]}.



(** A post office: the two paragraphs of its tooltip and the item that the
    first callback made. *)
Definition targowa_phones : PyStr.text :=
  PyStr.lit "<p>22 123 45 67<br>22 765 43 21</p>".

Definition targowa_address : PyStr.text :=
  PyStr.lit "<p>ul. Targowa 73<br>03-408 Warszawa</p>".

(** The same office in a town whose name has two words. *)
Definition zielona_gora_address : PyStr.text :=
  PyStr.lit "<p>ul. Targowa 73<br>65-900 Zielona Gora</p>".

Definition post_office_item : PocztaPolska.item :=
  [("ref", PocztaPolska.Other 260517);
   ("name", PocztaPolska.Text (PyStr.lit "UP Warszawa 4"))].

(** A listing of the bucket with two runs, and stand-ins for S3 and for
    [datetime]: only the first run has its [_results.json], and a run id
    parses when it has the nineteen characters of a time stamp. *)
Definition example_listing : list (option PyStr.text) :=
  (λ prefix, Some (PyStr.lit prefix))
    <$> ["runs/2022-11-19-13-32-11/"; "runs/2022-11-26-13-32-07/";
         "runs/latest/"].

Definition example_head_object (bucket key : PyStr.text)
    : RestoreHistory.head_answer :=
  if decide (key = PyStr.lit "runs/2022-11-19-13-32-11/stats/_results.json")
  then RestoreHistory.Found else RestoreHistory.NotFound.

Definition example_strptime (run_id : PyStr.text) : option PyStr.text :=
  if decide (length run_id = 19%nat) then Some run_id else None.

Definition example_strftime (start_time : PyStr.text) : PyStr.text :=
  start_time.

(** * Properties *)

(** ** Strings *)

Lemma str_app_assoc (a b c : string) : (a +:+ b) +:+ c = a +:+ (b +:+ c).
Proof.
  induction a as [|x a IH]; [done|].
  change (String x ((a +:+ b) +:+ c) = String x (a +:+ (b +:+ c))).
  by rewrite IH.
Qed.

Lemma str_app_nil_r (a : string) : a +:+ EmptyString = a.
Proof.
  induction a as [|x a IH]; [done|].
  change (String x (a +:+ EmptyString) = String x a). by rewrite IH.
Qed.

Lemma key_lt_of_le (a b : string) : String.le a b → a ≠ b → key_lt a b.
Proof.
  unfold String.le, String.leb, key_lt. intros Hle Hne.
  destruct (String.compare a b) eqn:Hc; [|done..].
  by apply String.compare_eq_iff in Hc.
Qed.

(** ** Dicts *)

Lemma dict_get_Some_elem k v (d : dict) : dict_get k d = Some v → (k, v) ∈ d.
Proof.
  induction d as [|[k' v'] d IH]; simpl; [done|].
  case_decide; intros ?; simplify_eq; [left | right; auto].
Qed.

Lemma dict_get_None k (d : dict) : dict_get k d = None ↔ k ∉ d.*1.
Proof.
  induction d as [|[k' v'] d IH]; simpl.
  - split; [intros _; apply not_elem_of_nil | done].
  - rewrite not_elem_of_cons, <-IH. case_decide as Hk; [|tauto].
    split; [done|]. intros [[] _]. done.
Qed.

Lemma dict_get_is_Some k (d : dict) : is_Some (dict_get k d) ↔ k ∈ d.*1.
Proof.
  rewrite <-not_eq_None_Some, dict_get_None.
  destruct (decide (k ∈ d.*1)); naive_solver.
Qed.

Lemma dict_get_elem k v (d : dict) : dict_wf d → (k, v) ∈ d → dict_get k d = Some v.
Proof.
  unfold dict_wf. induction d as [|[k' v'] d IH]; simpl; [by intros _ ?%elem_of_nil|].
  intros [Hk Hd]%NoDup_cons [?|Hin]%elem_of_cons; simplify_eq.
  - by rewrite decide_True.
  - rewrite decide_False; [auto|]. intros ->. apply Hk.
    apply list_elem_of_fmap. by exists (k', v).
Qed.

Lemma dict_has_spec k (d : dict) : dict_has k d = true ↔ k ∈ d.*1.
Proof. unfold dict_has. by rewrite bool_decide_eq_true, dict_get_is_Some. Qed.

Lemma dict_set_in k v (d : dict) : k ∈ d.*1 → (dict_set k v d).*1 = d.*1.
Proof.
  induction d as [|[k' v'] d IH]; simpl; [by intros ?%elem_of_nil|].
  intros Hin. case_decide; simplify_eq/=; [done|].
  f_equal. apply IH. apply elem_of_cons in Hin as [?|?]; done.
Qed.

Lemma dict_set_notin k v (d : dict) : k ∉ d.*1 → dict_set k v d = d ++ [(k, v)].
Proof.
  induction d as [|[k' v'] d IH]; simpl; [done|].
  intros [? ?]%not_elem_of_cons. rewrite decide_False by done. by rewrite IH.
Qed.

Lemma dict_get_set k k' v (d : dict) :
  dict_get k' (dict_set k v d) = if decide (k' = k) then Some v else dict_get k' d.
Proof.
  induction d as [|[k0 v0] d IH]; simpl.
  - repeat case_decide; naive_solver.
  - repeat (case_decide; simplify_eq/=); try done; repeat case_decide; naive_solver.
Qed.

Lemma dict_set_keys k v (d : dict) :
  (dict_set k v d).*1 = if decide (k ∈ d.*1) then d.*1 else d.*1 ++ [k].
Proof.
  case_decide.
  - by apply dict_set_in.
  - rewrite dict_set_notin by done. by rewrite fmap_app.
Qed.

Lemma dict_set_wf k v (d : dict) : dict_wf d → dict_wf (dict_set k v d).
Proof.
  unfold dict_wf. rewrite dict_set_keys. case_decide; [done|].
  intros Hd. apply NoDup_app. split_and!; [done| |apply NoDup_singleton].
  intros x Hx ->%list_elem_of_singleton. done.
Qed.

Lemma dict_set_nonempty k v (d : dict) : dict_set k v d ≠ [].
Proof. destruct d as [|[k' v'] d]; simpl; [done|]. by case_decide. Qed.

Lemma dict_update_wf (d o : dict) : dict_wf d → dict_wf (dict_update d o).
Proof.
  unfold dict_update. revert d.
  induction o as [|[k v] o IH]; intros d Hd; simpl; [done|].
  apply IH. by apply dict_set_wf.
Qed.

Lemma dict_comp_wf (items : list (string * value)) : dict_wf (dict_comp items).
Proof. apply dict_update_wf. apply NoDup_nil_2. Qed.

Lemma dict_update_fresh (d o : dict) :
  NoDup (d ++ o).*1 → dict_update d o = d ++ o.
Proof.
  unfold dict_update. revert d.
  induction o as [|[k v] o IH]; intros d Hd; simpl.
  - by rewrite app_nil_r.
  - rewrite dict_set_notin.
    + rewrite IH; rewrite <-(assoc_L (++)); done.
    + rewrite fmap_app in Hd. apply NoDup_app in Hd as (_ & Hd & _).
      intros Hk. apply (Hd k Hk). simpl. left.
Qed.

Lemma dict_comp_id (items : list (string * value)) :
  dict_wf items → dict_comp items = items.
Proof. intros Hwf. unfold dict_comp. by rewrite dict_update_fresh. Qed.

Lemma dict_get_update k (d o : dict) :
  dict_get k (dict_update d o) =
    match dict_get k (reverse o) with Some v => Some v | None => dict_get k d end.
Proof.
  unfold dict_update. revert d.
  induction o as [|[k' v'] o IH] using rev_ind; intros d; simpl; [done|].
  rewrite foldl_app, reverse_app. simpl.
  rewrite dict_get_set. case_decide; simplify_eq; [done|]. apply IH.
Qed.

(** ** What one attribute contributes to the text *)

Ltac str_assoc := repeat rewrite str_app_assoc; repeat rewrite str_app_nil_r.

Lemma foldl_render_dict_entry (code : string) (items : dict) :
  foldl render_dict_entry code items = code +:+ pieces (dict_entry_line <$> items).
Proof.
  revert code. induction items as [|[k v] items IH]; intros code; simpl.
  - by rewrite str_app_nil_r.
  - rewrite IH. unfold render_dict_entry, dict_entry_line. simpl.
    destruct v; str_assoc; done.
Qed.

Lemma foldl_render_seq_entry (code : string) (elems : list value) :
  foldl render_seq_entry code elems = code +:+ pieces (seq_entry_line <$> elems).
Proof.
  revert code. induction elems as [|v elems IH]; intros code; simpl.
  - by rewrite str_app_nil_r.
  - rewrite IH. unfold render_seq_entry, seq_entry_line.
    destruct v; str_assoc; done.
Qed.

Lemma render_attribute_run (code : string) (kv : string * value) (h : heap) :
  render_attribute code kv h
  = (result_map (String.append code) (attribute_lines h kv), h).
Proof.
  destruct kv as [k v]. unfold render_attribute, attribute_lines.
  destruct v as [| | | |xs|l| |[]|truth [] [xs|]]; simpl;
    unfold ret, bind, raise, read_dict; simpl;
    rewrite ?foldl_render_dict_entry, ?foldl_render_seq_entry, ?str_app_nil_r;
    str_assoc; done.
Qed.

Lemma foldM_render_attribute (code : string) (items : dict) (h : heap) :
  foldM render_attribute code items h
  = (result_map (λ ls, code +:+ pieces ls)
       (result_mapM (attribute_lines h) items), h).
Proof.
  revert code. induction items as [|kv items IH]; intros code; simpl.
  - unfold ret. by rewrite str_app_nil_r.
  - unfold bind. rewrite render_attribute_run.
    destruct (attribute_lines h kv) as [t|e]; simpl; [|done].
    rewrite IH. destruct (result_mapM _ items); simpl; [|done].
    by rewrite str_app_assoc.
Qed.

(** The attribute code is the lines of the sorted attributes, in their
    order; rendering leaves the heap as it found it. *)
Lemma generate_spider_attributes_code_run spider sort_order (h : heap) :
  generate_spider_attributes_code spider sort_order h
  = (result_map pieces
       (result_mapM (attribute_lines h) (spider_attributes_sorted spider sort_order)),
     h).
Proof.
  unfold generate_spider_attributes_code. rewrite foldM_render_attribute.
  by destruct (result_mapM _ _).
Qed.

(** ** Imports and class declaration *)

Lemma foldl_bases (imports : string) (supers : list string) (bases : list class_obj) :
  foldl (λ '(imports_list, superclasses) spider_base,
           (imports_list +:+ "from " +:+ cls_module spider_base +:+ " import "
              +:+ cls_name spider_base +:+ nl,
            superclasses ++ [cls_name spider_base]))
        (imports, supers) bases
  = (imports +:+ pieces (import_line <$> bases), supers ++ (cls_name <$> bases)).
Proof.
  revert imports supers.
  induction bases as [|b bases IH]; intros imports supers; simpl.
  - by rewrite str_app_nil_r, app_nil_r.
  - rewrite IH. unfold import_line. str_assoc. by rewrite <-(assoc_L (++)).
Qed.

Lemma generate_spider_code_run spider (h : heap) :
  generate_spider_code spider h
  = (result_map
       (λ attributes,
          pieces (import_line <$> cls_bases spider) +:+ class_header spider
            +:+ attributes)
       (generate_spider_attributes_code spider default_sort_order h).1,
     h).
Proof.
  unfold generate_spider_code. rewrite foldl_bases. simpl.
  unfold bind. rewrite generate_spider_attributes_code_run. simpl.
  destruct (result_mapM _ _); simpl; [|done].
  unfold ret, class_header. str_assoc. done.
Qed.

(** C8: the text of [generate_spider_code] is one import line per base,
    each naming the module and the name of that base, in the order of
    [__bases__], then the class declaration with the name of the spider
    and the names of the bases joined by a comma and a space in the same
    order, then the attribute code. *)
Theorem imports_and_class_declaration spider (h : heap) :
  generate_spider_code spider h
  = (result_map
       (λ attributes,
          pieces (import_line <$> cls_bases spider)
            +:+ (nl +:+ nl +:+ "class " +:+ cls_name spider +:+ "("
                   +:+ String.concat ", " (cls_name <$> cls_bases spider) +:+ "):")
            +:+ attributes)
       (generate_spider_attributes_code spider default_sort_order h).1,
     h)
  ∧ length (import_line <$> cls_bases spider) = length (cls_bases spider)
  ∧ ∀ i, (import_line <$> cls_bases spider) !! i
         = (λ base, "from " +:+ cls_module base +:+ " import "
                      +:+ cls_name base +:+ nl) <$> cls_bases spider !! i.
Proof.
  split_and!.
  - apply generate_spider_code_run.
  - apply length_fmap.
  - intros i. apply list_lookup_fmap.
Qed.

(** The definition of the scenario, with its attributes bound in another
    order and a few more of them. *)
Example acme_example_text :
  generate_spider_code acme_example acme_example_heap
  = (Ok (pieces
           ["from scraping_lib import Spider"; nl; nl; nl;
            "class acme_example(Spider):";
            nl; tab; "name = "; dquote; "acme_example"; dquote;
            nl; tab; "item_attributes = {";
            nl; tab; tab; "brand = "; dquote; "Acme"; dquote; ",";
            nl; tab; tab; "brand_wikidata = "; dquote; "Q1"; dquote; ",";
            nl; tab; "}";
            nl; tab; "allowed_domains = [";
            nl; tab; tab; dquote; "acme.example"; dquote; ",";
            nl; tab; "]";
            nl; tab; "start_urls = [";
            nl; tab; tab; dquote; "https://acme.example/stores"; dquote; ",";
            nl; tab; "]";
            nl; tab; "api_key = "; dquote; "k1"; dquote;
            nl; tab; "zone = "; dquote; "north"; dquote]),
     acme_example_heap).
Proof. by vm_compute. Qed.

(** ** The order of the attributes *)

Global Instance item_le_total : Total item_le.
Proof. intros a b. apply (total String.le). Qed.

Global Instance item_le_trans : Transitive item_le.
Proof. intros a b c. unfold item_le. apply transitivity. Qed.

Lemma filter_fst (P : string → Prop) `{!∀ k, Decision (P k)} (l : dict) :
  (filter (λ kv, P kv.1) l).*1 = filter P l.*1.
Proof.
  induction l as [|[k v] l IH]; [done|].
  rewrite fmap_cons, (filter_cons P (k, v).1).
  rewrite (filter_cons (λ kv : string * value, P kv.1) (k, v)).
  simpl. case_decide; simpl; [f_equal|]; apply IH.
Qed.

Lemma StronglySorted_filter {A} (R : relation A) (P : A → Prop)
    `{!∀ x, Decision (P x)} (l : list A) :
  StronglySorted R l → StronglySorted R (filter P l).
Proof.
  induction 1 as [|x l Hl IH Hx]; [constructor|].
  rewrite filter_cons. case_decide; [|done].
  constructor; [done|].
  apply Forall_forall. intros y [_ Hy]%list_elem_of_filter.
  rewrite Forall_forall in Hx. auto.
Qed.

Lemma sorted_keys_lt (l : dict) :
  StronglySorted item_le l → dict_wf l → StronglySorted key_lt l.*1.
Proof.
  unfold dict_wf. induction 1 as [|[k v] l Hl IH Hx]; simpl; [constructor|].
  intros [Hk Hnd]%NoDup_cons. constructor; [auto|].
  apply Forall_fmap, Forall_forall. intros [k' v'] Hin. simpl.
  rewrite Forall_forall in Hx. apply key_lt_of_le; [apply (Hx _ Hin)|].
  intros ->. apply Hk, list_elem_of_fmap. by exists (k', v').
Qed.

Lemma select_all (d : dict) (l : list (string * value)) :
  dict_wf d → l ⊆ d → select d l.*1 = l.
Proof.
  intros Hwf. unfold select.
  induction l as [|[k v] l IH]; intros Hsub; simpl; [done|].
  rewrite (dict_get_elem k v d) by (done || apply Hsub; left).
  simpl. f_equal. apply IH. intros x Hx. apply Hsub. by right.
Qed.

Lemma select_keys (d : dict) (ks : list string) :
  Forall (λ k, k ∈ d.*1) ks → (select d ks).*1 = ks.
Proof.
  unfold select. induction 1 as [|k ks Hk _ IH]; simpl; [done|].
  apply dict_get_is_Some in Hk as [v Hv]. rewrite Hv. simpl.
  f_equal. exact IH.
Qed.

Lemma sorted_items_perm (d : dict) : sorted_items d ≡ₚ d.
Proof. apply merge_sort_Permutation. Qed.

Lemma sorted_items_wf (d : dict) : dict_wf d → dict_wf (sorted_items d).
Proof. unfold dict_wf. by rewrite sorted_items_perm. Qed.

Lemma spider_attributes_wf spider : dict_wf (spider_attributes spider).
Proof. apply dict_comp_wf. Qed.

(** With distinct names in [sort_order], the sorted attributes are the
    listed ones that are present, in the listed order, and then the
    others in the order [sorted] gives them. *)
Lemma spider_attributes_sorted_eq spider (sort_order : list string) :
  NoDup sort_order →
  spider_attributes_sorted spider sort_order
  = select (spider_attributes spider)
      (filter (λ k, dict_has k (spider_attributes spider)) sort_order)
    ++ filter (λ kv, kv.1 ∉ sort_order) (sorted_items (spider_attributes spider)).
Proof.
  intros Hso. unfold spider_attributes_sorted.
  pose proof (spider_attributes_wf spider) as Hwf.
  set (attrs := spider_attributes spider) in *.
  assert (Hfirst : (select attrs (filter (λ k, dict_has k attrs) sort_order)).*1
                   = filter (λ k, dict_has k attrs) sort_order).
  { apply select_keys, Forall_forall. intros k [Hk _]%list_elem_of_filter.
    by apply dict_has_spec, Is_true_true. }
  rewrite (dict_comp_id (select _ _)); last first.
  { unfold dict_wf. rewrite Hfirst. by apply NoDup_filter. }
  rewrite (dict_comp_id (sorted_items attrs)) by by apply sorted_items_wf.
  pose proof (filter_fst (λ k, k ∉ sort_order)) as Hfst.
  rewrite <-Hfst.
  assert (Hothers : dict_wf (filter (λ kv, kv.1 ∉ sort_order) (sorted_items attrs))).
  { unfold dict_wf. rewrite Hfst.
    apply NoDup_filter. by apply sorted_items_wf. }
  rewrite select_all; [|done|]; last first.
  { intros x [_ Hx]%list_elem_of_filter. by rewrite sorted_items_perm in Hx. }
  rewrite (dict_comp_id (filter _ _)) by done.
  apply dict_update_fresh. rewrite fmap_app. apply NoDup_app. split_and!.
  - rewrite Hfirst. by apply NoDup_filter.
  - rewrite Hfirst, Hfst.
    intros k [_ Hk]%list_elem_of_filter [Hk' _]%list_elem_of_filter. done.
  - done.
Qed.

Lemma default_sort_order_NoDup : NoDup default_sort_order.
Proof. apply (bool_decide_unpack _). by vm_compute. Qed.

Lemma elem_of_select k v (d : dict) (ks : list string) :
  (k, v) ∈ select d ks ↔ k ∈ ks ∧ dict_get k d = Some v.
Proof.
  unfold select. rewrite list_elem_of_omap. split.
  - intros (k' & Hk' & Heq). destruct (dict_get k' d) eqn:Hget; simplify_eq/=. done.
  - intros [Hk Hget]. exists k. by rewrite Hget.
Qed.

Lemma sorted_attributes_perm spider :
  spider_attributes_sorted spider default_sort_order ≡ₚ spider_attributes spider.
Proof.
  pose proof (spider_attributes_wf spider) as Hwf.
  pose proof (spider_attributes_sorted_eq spider _ default_sort_order_NoDup) as Heq.
  assert (Hwf' : dict_wf (spider_attributes_sorted spider default_sort_order)).
  { apply dict_update_wf, dict_comp_wf. }
  apply NoDup_Permutation; [by eapply NoDup_fmap_1..|].
  intros [k v]. rewrite Heq, elem_of_app, elem_of_select, !list_elem_of_filter.
  rewrite sorted_items_perm. simpl. split.
  - intros [[_ Hget]|[_ Hin]]; [by apply dict_get_Some_elem|done].
  - intros Hin. destruct (decide (k ∈ default_sort_order)) as [Hk|Hk]; [left|by right].
    split_and!; [|done|by apply dict_get_elem].
    apply Is_true_true, dict_has_spec, list_elem_of_fmap. by exists (k, v).
Qed.

Lemma spider_attributes_filter spider :
  dict_wf (cls_dict spider) →
  spider_attributes spider = filter (λ kv, kept kv) (cls_dict spider).
Proof.
  intros Hwf. apply dict_comp_id. unfold dict_wf.
  eapply sublist_NoDup; [exact Hwf|]. apply fmap_sublist, sublist_filter.
Qed.

Lemma elem_of_spider_attributes_sorted spider k v :
  dict_wf (cls_dict spider) →
  (k, v) ∈ spider_attributes_sorted spider default_sort_order
  ↔ dict_get k (cls_dict spider) = Some v ∧ kept (k, v) = true.
Proof.
  intros Hwf.
  rewrite sorted_attributes_perm, spider_attributes_filter by done.
  rewrite list_elem_of_filter, Is_true_true. split.
  - intros [? ?]. split; [by apply dict_get_elem|done].
  - intros [? ?]. split; [done|by apply dict_get_Some_elem].
Qed.

Lemma kept_spec (k : string) (v : value) :
  kept (k, v) = true ↔ String.prefix "_" k = false ∧ v ≠ VNone.
Proof.
  unfold kept. simpl. rewrite andb_true_iff, !negb_true_iff. split.
  - intros [Hk Hv]. split; [done|]. by intros ->.
  - intros [Hk Hv]. split; [done|]. by destruct v.
Qed.

(** C1: the attribute code, which also ends the text of
    [generate_spider_code], is made of the lines of two runs of
    attributes, [reserved] and then [others].  The keys of [reserved]
    come in the fixed order name, item_attributes, allowed_domains,
    start_urls; the keys of [others] are none of these four and come in
    strictly ascending lexicographic order.  Together the two runs hold
    every attribute of the definition that is kept (no leading
    underscore, not [None]), each once, and nothing else. *)
Theorem attribute_order spider (h : heap) :
  dict_wf (cls_dict spider) →
  ∃ reserved others : dict,
    generate_spider_attributes_code spider default_sort_order h
    = (result_map pieces (result_mapM (attribute_lines h) (reserved ++ others)), h)
    ∧ generate_spider_code spider h
      = (result_map
           (λ lines,
              pieces (import_line <$> cls_bases spider) +:+ class_header spider
                +:+ pieces lines)
           (result_mapM (attribute_lines h) (reserved ++ others)), h)
    ∧ reserved.*1
      `sublist_of` ["name"; "item_attributes"; "allowed_domains"; "start_urls"]
    ∧ Forall (λ k, k ∉ ["name"; "item_attributes"; "allowed_domains";
                        "start_urls"]) others.*1
    ∧ StronglySorted key_lt others.*1
    ∧ NoDup (reserved ++ others).*1
    ∧ ∀ k v, (k, v) ∈ reserved ++ others
             ↔ dict_get k (cls_dict spider) = Some v
               ∧ String.prefix "_" k = false ∧ v ≠ VNone.
Proof.
  intros Hdict.
  pose proof (spider_attributes_wf spider) as Hwf.
  pose proof (spider_attributes_sorted_eq spider _ default_sort_order_NoDup) as Heq.
  pose proof (elem_of_spider_attributes_sorted spider) as Hin.
  assert (Hnodup : dict_wf (spider_attributes_sorted spider default_sort_order))
    by apply dict_update_wf, dict_comp_wf.
  rewrite Heq in Hin, Hnodup.
  set (attrs := spider_attributes spider) in *.
  exists (select attrs (filter (λ k, dict_has k attrs) default_sort_order)),
         (filter (λ kv, kv.1 ∉ default_sort_order) (sorted_items attrs)).
  pose proof (filter_fst (λ k, k ∉ default_sort_order)) as Hfst.
  split_and!.
  - by rewrite generate_spider_attributes_code_run, Heq.
  - rewrite generate_spider_code_run, generate_spider_attributes_code_run, Heq.
    simpl. by destruct (result_mapM _ _).
  - rewrite select_keys.
    + apply sublist_filter.
    + apply Forall_forall. intros k [Hk _]%list_elem_of_filter.
      by apply dict_has_spec, Is_true_true.
  - rewrite Hfst. apply Forall_forall. by intros k [Hk _]%list_elem_of_filter.
  - rewrite Hfst. apply StronglySorted_filter, sorted_keys_lt.
    + apply StronglySorted_merge_sort; apply _.
    + by apply sorted_items_wf.
  - exact Hnodup.
  - intros k v. rewrite (Hin k v Hdict). by rewrite kept_spec.
Qed.

Lemma attribute_order_witness :
  ∃ reserved others : dict,
    (generate_spider_code acme_example acme_example_heap).1
    = result_map
        (λ lines,
           pieces (import_line <$> cls_bases acme_example)
             +:+ class_header acme_example +:+ pieces lines)
        (result_mapM (attribute_lines acme_example_heap) (reserved ++ others))
    ∧ reserved.*1
      `sublist_of` ["name"; "item_attributes"; "allowed_domains"; "start_urls"]
    ∧ StronglySorted key_lt others.*1
    ∧ ("zone", VStr "north") ∈ reserved ++ others
    ∧ ("download_delay", VNone) ∉ reserved ++ others.
Proof.
  assert (Hwf : dict_wf (cls_dict acme_example)).
  { apply (bool_decide_unpack _). by vm_compute. }
  destruct (attribute_order acme_example acme_example_heap Hwf)
    as (reserved & others & _ & Hcode & Hsub & _ & Hsorted & _ & Hin).
  exists reserved, others. split_and!; [by rewrite Hcode|done|done| |].
  - by apply Hin.
  - intros (_ & _ & Hnone)%Hin. done.
Defined.

(** The attributes of the example, in the order in which they are
    rendered. *)
Example acme_example_order :
  (spider_attributes_sorted acme_example default_sort_order).*1
  = ["name"; "item_attributes"; "allowed_domains"; "start_urls";
     "api_key"; "parse"; "requires_proxy"; "zone"].
Proof. by vm_compute. Qed.

(** ** Determinism *)

(** C2: rendering a definition returns its text and the heap it was given,
    unchanged; a second rendering, run after the first, returns the same
    text (or ends with the same exception). *)
Theorem rendering_deterministic spider (h : heap) :
  (generate_spider_code spider h).2 = h
  ∧ generate_spider_code spider (generate_spider_code spider h).2
    = generate_spider_code spider h.
Proof.
  assert ((generate_spider_code spider h).2 = h) as Hh
    by by rewrite generate_spider_code_run.
  by rewrite Hh.
Qed.

(** ** Attributes that are left out *)

Lemma filter_filter_ext {A} (P Q : A → Prop)
    `{!∀ x, Decision (P x)} `{!∀ x, Decision (Q x)} (l : list A) :
  (∀ x, x ∈ l → P x → Q x) → filter P (filter Q l) = filter P l.
Proof.
  induction l as [|x l IH]; intros HPQ; [done|].
  assert (IH' := IH (λ y Hy, HPQ y (list_elem_of_further _ _ _ Hy))).
  rewrite !filter_cons. destruct (decide (Q x)) as [HQ|HQ].
  - rewrite filter_cons. by rewrite IH'.
  - rewrite IH'. rewrite decide_False; [done|].
    intros HP. apply HQ, HPQ; [left|done].
Qed.

Lemma filter_kept_delete (k : string) (d : dict) :
  (∀ v, (k, v) ∈ d → kept (k, v) = false) →
  filter (λ kv, kept kv) (dict_delete k d) = filter (λ kv, kept kv) d.
Proof.
  intros Hk. apply filter_filter_ext. intros [k' v'] Hin Hkept Heq.
  simpl in Heq. subst k'. rewrite (Hk v' Hin) in Hkept. done.
Qed.

(** C4, as the code has it: an attribute bound to [None], or whose name
    starts with an underscore, is not among the rendered attributes, and
    the attribute code is the one of the definition without it.  Any other
    attribute, an empty string, sequence or dict included, is rendered
    with its value. *)
Theorem none_and_private_omitted spider (k : string) (h : heap) :
  dict_wf (cls_dict spider) →
  (dict_get k (cls_dict spider) = Some VNone ∨ String.prefix "_" k = true →
   (k ∉ (spider_attributes_sorted spider default_sort_order).*1)
   ∧ generate_spider_attributes_code spider default_sort_order h
     = generate_spider_attributes_code (without_attribute spider k)
         default_sort_order h)
  ∧ (∀ v, dict_get k (cls_dict spider) = Some v →
          v ≠ VNone → String.prefix "_" k = false →
          (k, v) ∈ spider_attributes_sorted spider default_sort_order).
Proof.
  intros Hwf. split.
  - intros Hk.
    assert (Hnot : ∀ v, (k, v) ∈ cls_dict spider → kept (k, v) = false).
    { intros v Hv. unfold kept. simpl. destruct Hk as [Hnone| ->]; [|done].
      apply (dict_get_elem _ _ _ Hwf) in Hv. simplify_eq. simpl.
      by rewrite andb_false_r. }
    split.
    + intros ([k' v] & ? & Hin)%list_elem_of_fmap. simplify_eq/=.
      apply elem_of_spider_attributes_sorted in Hin as [Hget Hkept]; [|done].
      apply dict_get_Some_elem, Hnot in Hget. congruence.
    + unfold generate_spider_attributes_code, spider_attributes_sorted,
        spider_attributes. simpl. by rewrite filter_kept_delete.
  - intros v Hget Hv Hpre. apply elem_of_spider_attributes_sorted; [done|].
    split; [done|]. unfold kept. simpl. rewrite Hpre. by destruct v.
Qed.

(** C4 as stated fails: the empty string is an empty value, and the
    attribute bound to it is rendered all the same. *)
Lemma empty_string_not_omitted :
  ¬ omitted_if_empty (Class "S" "m" [] [] [("name", VStr EmptyString)]) ∅ "name".
Proof.
  intros Hclaim. apply (Hclaim (VStr EmptyString)); [done..|].
  vm_compute. left.
Qed.

Lemma none_and_private_omitted_witness :
  ("_key" ∉ (spider_attributes_sorted private_and_none_spider default_sort_order).*1)
  ∧ ("note" ∉ (spider_attributes_sorted private_and_none_spider default_sort_order).*1)
  ∧ ("name", VStr "s")
      ∈ spider_attributes_sorted private_and_none_spider default_sort_order.
Proof.
  assert (Hwf : dict_wf (cls_dict private_and_none_spider)).
  { apply (bool_decide_unpack _). by vm_compute. }
  split_and!.
  - apply (none_and_private_omitted private_and_none_spider "_key" ∅ Hwf). by right.
  - apply (none_and_private_omitted private_and_none_spider "note" ∅ Hwf). by left.
  - by apply (none_and_private_omitted private_and_none_spider "name" ∅ Hwf).
Defined.

(** ** Values that cannot be rendered *)

(** C5 fails on a class object whose type defines [__len__]: the test
    [hasattr(v, "__len__")] takes it for an array and iterating it raises
    [TypeError]. *)
Theorem sized_class_attribute_raises :
  generate_spider_attributes_code sized_class_spider default_sort_order ∅
  = (Raise TypeError, ∅)
  ∧ generate_spider_code sized_class_spider ∅ = (Raise TypeError, ∅).
Proof. by vm_compute. Qed.

(** Every other value is rendered or dropped without an exception. *)
Lemma attribute_lines_ok (h : heap) (kv : string * value) :
  sized_not_iterable kv.2 = false → ∃ text, attribute_lines h kv = Ok text.
Proof.
  destruct kv as [k v]. unfold attribute_lines. simpl.
  destruct v as [| | | | | | |[]|truth [] [xs|]]; intros Hv; by eauto.
Qed.

Lemma result_mapM_ok {A B} (f : A → result B) (l : list A) :
  Forall (λ a, ∃ b, f a = Ok b) l → ∃ bs, result_mapM f l = Ok bs.
Proof.
  induction 1 as [|a l [b Hb] _ [bs IH]]; simpl; [by eauto|].
  rewrite Hb, IH. simpl. by eauto.
Qed.

Lemma rendering_succeeds spider (h : heap) :
  dict_wf (cls_dict spider) →
  (∀ k v, dict_get k (cls_dict spider) = Some v → sized_not_iterable v = false) →
  ∃ text, generate_spider_code spider h = (Ok text, h).
Proof.
  intros Hwf Hno.
  rewrite generate_spider_code_run, generate_spider_attributes_code_run. simpl.
  destruct (result_mapM_ok (attribute_lines h)
              (spider_attributes_sorted spider default_sort_order)) as [bs ->].
  - apply Forall_forall. intros [k v] Hin. apply attribute_lines_ok. simpl.
    apply elem_of_spider_attributes_sorted in Hin as [Hget _]; [|done].
    by apply (Hno k).
  - simpl. by eauto.
Qed.

(** ** The protocol defaults *)

(** C6: whatever the response and the heap, [storefinder_exists] returns
    [False] and [extract_spider_attributes] returns an empty dict; neither
    raises nor touches the heap, and a second call returns the same. *)
Theorem protocol_defaults (response : Response) (h : heap) :
  storefinder_exists response h = (Ok (Verdict false), h)
  ∧ extract_spider_attributes response h = (Ok (Attributes []), h)
  ∧ storefinder_exists response (storefinder_exists response h).2
    = storefinder_exists response h
  ∧ extract_spider_attributes response (extract_spider_attributes response h).2
    = extract_spider_attributes response h.
Proof. done. Qed.

(** ** The declaration hook, step by step *)

Lemma kw_given_run (kwargs : dict) (k : string) (h : heap) :
  kw_given kwargs k h = (Ok (kw_given_in h kwargs k), h).
Proof.
  unfold kw_given, kw_given_in. destruct (dict_get k kwargs) as [v|]; [|done].
  unfold bind, truthy, ret. by destruct (truthy_in h v).
Qed.

Lemma deref_insert (h : heap) (l l' : loc) (d : dict) :
  deref (<[l := d]> h) l' = if decide (l' = l) then d else deref h l'.
Proof.
  unfold deref. case_decide; simplify_eq.
  - by rewrite lookup_insert_eq.
  - by rewrite lookup_insert_ne.
Qed.

Lemma deref_fresh (h : heap) : deref h (fresh (dom h)) = [].
Proof.
  unfold deref. assert (h !! fresh (dom h) = None) as ->; [|done].
  apply not_elem_of_dom, is_fresh.
Qed.

Lemma deref_alloc (h : heap) (l : loc) :
  deref (<[fresh (dom h) := []]> h) l = deref h l.
Proof. rewrite deref_insert. case_decide; [|done]. subst. by rewrite deref_fresh. Qed.

Lemma truthy_in_ext (h h' : heap) (v : value) :
  (∀ l, deref h' l = deref h l) → truthy_in h' v = truthy_in h v.
Proof. intros Heq. destruct v; simpl; try done. by rewrite Heq. Qed.

Lemma kw_given_in_ext (h h' : heap) (kwargs : dict) (k : string) :
  (∀ l, deref h' l = deref h l) → kw_given_in h' kwargs k = kw_given_in h kwargs k.
Proof.
  intros Heq. unfold kw_given_in. destruct (dict_get k kwargs); [|done].
  by rewrite (truthy_in_ext h h').
Qed.

Lemma truthy_in_mono (h h' : heap) (v : value) :
  heap_grows h h' → truthy_in h v = true → truthy_in h' v = true.
Proof.
  intros Hgrow. destruct v; simpl; try done.
  rewrite !bool_decide_eq_true. apply Hgrow.
Qed.

Lemma kw_given_in_Some (h : heap) (kwargs : dict) (k : string) (v : value) :
  kw_given_in h kwargs k = Some v ↔ dict_get k kwargs = Some v ∧ truthy_in h v = true.
Proof.
  unfold kw_given_in. destruct (dict_get k kwargs) as [v'|].
  - destruct (truthy_in h v') eqn:Ht; split.
    + by intros [= ->].
    + by intros [[= ->] _].
    + done.
    + intros [[= ->] ?]. congruence.
  - split; [done|]. by intros [? _].
Qed.

Lemma kw_given_in_mono (h h' : heap) (kwargs : dict) (k : string) (v : value) :
  heap_grows h h' → kw_given_in h kwargs k = Some v → kw_given_in h' kwargs k = Some v.
Proof.
  rewrite !kw_given_in_Some. intros Hgrow [? ?]. eauto using truthy_in_mono.
Qed.

Lemma cls_getattr_setattr (cls : class_obj) (k k' : string) (v : value) :
  cls_getattr (cls_setattr cls k v) k'
  = if decide (k' = k) then Some v else cls_getattr cls k'.
Proof.
  unfold cls_getattr, cls_setattr. simpl. rewrite dict_get_set.
  by case_decide.
Qed.

Lemma ensure_item_attributes_present (cls : class_obj) (v : value) (h : heap) :
  cls_getattr cls "item_attributes" = Some v →
  ensure_item_attributes cls h = (Ok cls, h).
Proof. unfold ensure_item_attributes. by intros ->. Qed.

Lemma ensure_item_attributes_absent (cls : class_obj) (h : heap) :
  cls_getattr cls "item_attributes" = None →
  ensure_item_attributes cls h
  = (Ok (cls_setattr cls "item_attributes" (VDict (fresh (dom h)))),
     <[fresh (dom h) := []]> h).
Proof. unfold ensure_item_attributes. by intros ->. Qed.

Lemma item_attributes_setitem_dict (cls : class_obj) (l : loc) k v (h : heap) :
  cls_getattr cls "item_attributes" = Some (VDict l) →
  item_attributes_setitem cls k v h
  = (Ok tt, <[l := dict_set k v (deref h l)]> h).
Proof. unfold item_attributes_setitem. by intros ->. Qed.

Lemma item_attributes_setitem_other (cls : class_obj) (x : value) k v (h : heap) :
  cls_getattr cls "item_attributes" = Some x →
  (∀ l, x ≠ VDict l) →
  item_attributes_setitem cls k v h = (Raise TypeError, h).
Proof.
  unfold item_attributes_setitem. intros -> Hx. destruct x; try done.
  by destruct (Hx l).
Qed.

(** A block of the hook on a class whose [item_attributes] is a dict. *)
Lemma fold_wikidata_dict wikidata label cls kwargs (l : loc) (h : heap) :
  cls_getattr cls "item_attributes" = Some (VDict l) →
  fold_wikidata wikidata label cls kwargs h
  = (Ok cls, fold_into wikidata label kwargs l h).
Proof.
  intros Hl. unfold fold_wikidata, fold_into, bind.
  rewrite kw_given_run. destruct (kw_given_in h kwargs wikidata) as [q|]; [|done].
  rewrite (ensure_item_attributes_present _ _ _ Hl).
  rewrite (item_attributes_setitem_dict _ _ _ _ _ Hl).
  rewrite kw_given_run. simpl.
  destruct (kw_given_in _ kwargs label) as [text|]; [|done].
  by rewrite (item_attributes_setitem_dict _ _ _ _ _ Hl).
Qed.

(** A block of the hook on a class without [item_attributes]. *)
Lemma fold_wikidata_absent wikidata label cls kwargs (h : heap) :
  cls_getattr cls "item_attributes" = None →
  fold_wikidata wikidata label cls kwargs h
  = match kw_given_in h kwargs wikidata with
    | None => (Ok cls, h)
    | Some _ =>
        (Ok (cls_setattr cls "item_attributes" (VDict (fresh (dom h)))),
         fold_into wikidata label kwargs (fresh (dom h)) (<[fresh (dom h) := []]> h))
    end.
Proof.
  intros Hl. unfold fold_wikidata, fold_into, bind.
  rewrite kw_given_run.
  rewrite (kw_given_in_ext h (<[fresh (dom h) := []]> h)) by apply deref_alloc.
  destruct (kw_given_in h kwargs wikidata) as [q|]; [|done].
  rewrite (ensure_item_attributes_absent _ _ Hl).
  set (cls' := cls_setattr cls _ _).
  assert (Hl' : cls_getattr cls' "item_attributes" = Some (VDict (fresh (dom h)))).
  { unfold cls'. rewrite cls_getattr_setattr. by rewrite decide_True. }
  rewrite (item_attributes_setitem_dict _ _ _ _ _ Hl').
  rewrite kw_given_run. simpl.
  destruct (kw_given_in _ kwargs label) as [text|]; [|done].
  by rewrite (item_attributes_setitem_dict _ _ _ _ _ Hl').
Qed.

(** A block of the hook on a class whose [item_attributes] is no dict. *)
Lemma fold_wikidata_other wikidata label cls kwargs (x : value) (h : heap) :
  cls_getattr cls "item_attributes" = Some x →
  (∀ l, x ≠ VDict l) →
  fold_wikidata wikidata label cls kwargs h
  = match kw_given_in h kwargs wikidata with
    | None => (Ok cls, h)
    | Some _ => (Raise TypeError, h)
    end.
Proof.
  intros Hx Hnd. unfold fold_wikidata, bind.
  rewrite kw_given_run. destruct (kw_given_in h kwargs wikidata) as [q|]; [|done].
  rewrite (ensure_item_attributes_present _ _ _ Hx).
  by rewrite (item_attributes_setitem_other _ _ _ _ _ Hx Hnd).
Qed.

Lemma heap_grows_refl (h : heap) : heap_grows h h.
Proof. by intros l. Qed.

Lemma heap_grows_trans (h1 h2 h3 : heap) :
  heap_grows h1 h2 → heap_grows h2 h3 → heap_grows h1 h3.
Proof. intros H12 H23 l Hl. by apply H23, H12. Qed.

Lemma heap_grows_insert (h : heap) (l : loc) (d : dict) :
  d ≠ [] → heap_grows h (<[l := d]> h).
Proof. intros Hd l' Hl'. rewrite deref_insert. by case_decide. Qed.

Lemma heap_grows_alloc (h : heap) : heap_grows h (<[fresh (dom h) := []]> h).
Proof. intros l. by rewrite deref_alloc. Qed.

Section fold_into.
Context (wikidata label : string) (kwargs : dict) (l : loc) (h : heap).

Lemma fold_into_grows : heap_grows h (fold_into wikidata label kwargs l h).
Proof.
  unfold fold_into. destruct (kw_given_in h kwargs wikidata); [|apply heap_grows_refl].
  simpl. destruct (kw_given_in _ kwargs label).
  - eapply heap_grows_trans; apply heap_grows_insert, dict_set_nonempty.
  - apply heap_grows_insert, dict_set_nonempty.
Qed.

Lemma fold_into_dom : dom h ⊆ dom (fold_into wikidata label kwargs l h).
Proof.
  unfold fold_into. destruct (kw_given_in h kwargs wikidata); [|done].
  simpl. destruct (kw_given_in _ kwargs label); rewrite !dom_insert; set_solver.
Qed.

Lemma fold_into_other_loc (l' : loc) :
  l' ≠ l → fold_into wikidata label kwargs l h !! l' = h !! l'.
Proof.
  intros Hl. unfold fold_into. destruct (kw_given_in h kwargs wikidata); [|done].
  simpl. destruct (kw_given_in _ kwargs label); by rewrite !lookup_insert_ne.
Qed.

Lemma fold_into_other_key (l' : loc) (k : string) :
  k ≠ wikidata → k ≠ label →
  dict_get k (deref (fold_into wikidata label kwargs l h) l')
  = dict_get k (deref h l').
Proof.
  intros Hw Hlab. unfold fold_into.
  destruct (kw_given_in h kwargs wikidata); [|done].
  simpl. destruct (kw_given_in _ kwargs label);
    rewrite !deref_insert; destruct (decide (l' = l)) as [->|]; try done;
    rewrite ?decide_True by done; rewrite !dict_get_set;
    rewrite !decide_False by done; done.
Qed.

Lemma fold_into_wikidata (q : value) :
  wikidata ≠ label →
  kw_given_in h kwargs wikidata = Some q →
  dict_get wikidata (deref (fold_into wikidata label kwargs l h) l) = Some q.
Proof.
  intros Hne Hq. unfold fold_into. rewrite Hq. simpl.
  destruct (kw_given_in _ kwargs label);
    rewrite !deref_insert, !decide_True by done;
    rewrite ?dict_get_set, ?decide_False, ?decide_True by done; done.
Qed.

Lemma fold_into_label (q text : value) :
  kw_given_in h kwargs wikidata = Some q →
  kw_given_in h kwargs label = Some text →
  dict_get label (deref (fold_into wikidata label kwargs l h) l) = Some text.
Proof.
  intros Hq Htext. unfold fold_into. rewrite Hq. simpl.
  erewrite (kw_given_in_mono h); [| |exact Htext]; last first.
  { apply heap_grows_insert, dict_set_nonempty. }
  by rewrite !deref_insert, !decide_True, dict_get_set, decide_True.
Qed.
End fold_into.

(** One block of the hook that returns. *)
Lemma fold_wikidata_ok wikidata label cls kwargs (h : heap) cls' (h' : heap) :
  wikidata ≠ label →
  fold_wikidata wikidata label cls kwargs h = (Ok cls', h') →
  heap_grows h h'
  ∧ (∀ l' k, k ≠ wikidata → k ≠ label →
       dict_get k (deref h' l') = dict_get k (deref h l'))
  ∧ (∀ k, k ≠ "item_attributes" →
       dict_get k (cls_dict cls') = dict_get k (cls_dict cls))
  ∧ (∀ v, cls_getattr cls "item_attributes" = Some v → cls' = cls)
  ∧ (∀ q, kw_given_in h kwargs wikidata = Some q →
       ∃ l, cls_getattr cls' "item_attributes" = Some (VDict l)
            ∧ dict_get wikidata (deref h' l) = Some q
            ∧ ∀ text, kw_given_in h kwargs label = Some text →
                      dict_get label (deref h' l) = Some text).
Proof.
  intros Hne. destruct (cls_getattr cls "item_attributes") as [x|] eqn:Hx.
  - assert (Hcase : (∃ l, x = VDict l) ∨ (∀ l, x ≠ VDict l))
      by (destruct x; first [by left; eauto | by right]).
    destruct Hcase as [[l ->]|Hnd].
    + rewrite (fold_wikidata_dict _ _ _ _ l) by done. intros [= <- <-].
      split_and!.
      * apply fold_into_grows.
      * intros. by apply fold_into_other_key.
      * done.
      * done.
      * intros q Hq. exists l. split_and!; [done|by apply fold_into_wikidata|].
        intros text Htext. by eapply fold_into_label.
    + rewrite (fold_wikidata_other _ _ _ _ x) by done.
      destruct (kw_given_in h kwargs wikidata); [done|]. intros [= <- <-].
      split_and!; [apply heap_grows_refl|done..].
  - rewrite fold_wikidata_absent by done.
    destruct (kw_given_in h kwargs wikidata) as [q|] eqn:Hq; intros [= <- <-].
    + assert (Hq' : kw_given_in (<[fresh (dom h) := []]> h) kwargs wikidata = Some q).
      { rewrite <-Hq. apply kw_given_in_ext, deref_alloc. }
      split_and!.
      * eapply heap_grows_trans; [apply heap_grows_alloc|apply fold_into_grows].
      * intros. by rewrite fold_into_other_key, deref_alloc.
      * intros k Hk. simpl. by rewrite dict_get_set, decide_False.
      * done.
      * intros ? [= <-]. exists (fresh (dom h)). split_and!.
        -- rewrite cls_getattr_setattr. by rewrite decide_True.
        -- by apply fold_into_wikidata.
        -- intros text Htext. eapply fold_into_label; [done|].
           rewrite <-Htext. apply kw_given_in_ext, deref_alloc.
    + split_and!; [apply heap_grows_refl|done..].
Qed.

Lemma init_subclass_unfold cls kwargs (h : heap) :
  __init_subclass__ cls kwargs h
  = match fold_wikidata "brand_wikidata" "brand" cls kwargs h with
    | (Ok cls1, h1) =>
        match fold_wikidata "operator_wikidata" "operator" cls1 kwargs h1 with
        | (Ok cls2, h2) => finish cls2 kwargs h2
        | (Raise e, h2) => (Raise e, h2)
        end
    | (Raise e, h1) => (Raise e, h1)
    end.
Proof.
  unfold __init_subclass__, bind, finish.
  destruct (fold_wikidata "brand_wikidata" _ _ _ _) as [[cls1|e] h1]; [|done].
  destruct (fold_wikidata "operator_wikidata" _ _ _ _) as [[cls2|e] h2]; [|done].
  rewrite !kw_given_run.
  destruct (kw_given_in h2 kwargs "extracted_attributes") as [x|]; [|done].
  unfold set_extracted. by destruct x.
Qed.

Lemma cls_dict_setattrs (cls : class_obj) (items : dict) :
  cls_dict (foldl (λ cls kv, cls_setattr cls kv.1 kv.2) cls items)
  = dict_update (cls_dict cls) items.
Proof.
  unfold dict_update. revert cls.
  induction items as [|[k v] items IH]; intros cls; simpl; [done|].
  by rewrite IH.
Qed.

Lemma cls_mro_setattrs (cls : class_obj) (items : dict) :
  cls_mro (foldl (λ cls kv, cls_setattr cls kv.1 kv.2) cls items) = cls_mro cls.
Proof.
  revert cls. induction items as [|[k v] items IH]; intros cls; simpl; [done|].
  by rewrite IH.
Qed.

Lemma dict_get_reverse k (d : dict) :
  dict_wf d → dict_get k (reverse d) = dict_get k d.
Proof.
  intros Hwf.
  assert (Hwf' : dict_wf (reverse d)).
  { unfold dict_wf. by rewrite fmap_reverse, reverse_Permutation. }
  destruct (dict_get k d) as [v|] eqn:Hget.
  - apply dict_get_elem; [done|]. apply elem_of_reverse.
    by apply dict_get_Some_elem.
  - apply dict_get_None. apply dict_get_None in Hget.
    by rewrite fmap_reverse, elem_of_reverse.
Qed.

Lemma dict_get_update_notin k (d o : dict) :
  k ∉ o.*1 → dict_get k (dict_update d o) = dict_get k d.
Proof.
  intros Hk. rewrite dict_get_update.
  assert (dict_get k (reverse o) = None) as ->; [|done].
  apply dict_get_None. by rewrite fmap_reverse, elem_of_reverse.
Qed.

Lemma dict_get_update_in k v (d o : dict) :
  dict_wf o → dict_get k o = Some v → dict_get k (dict_update d o) = Some v.
Proof.
  intros Hwf Hget. by rewrite dict_get_update, dict_get_reverse, Hget.
Qed.

Lemma cls_getattr_setattrs_notin (cls : class_obj) (items : dict) k :
  k ∉ items.*1 →
  cls_getattr (foldl (λ cls kv, cls_setattr cls kv.1 kv.2) cls items) k
  = cls_getattr cls k.
Proof.
  intros Hk. unfold cls_getattr. simpl.
  by rewrite cls_dict_setattrs, cls_mro_setattrs, dict_get_update_notin.
Qed.

Lemma finish_ok cls kwargs (h : heap) cls' (h' : heap) :
  finish cls kwargs h = (Ok cls', h') →
  h' = h
  ∧ ∃ items,
      cls' = foldl (λ cls kv, cls_setattr cls kv.1 kv.2)
               (match kw_given_in h kwargs "spider_key" with
                | Some key => cls_setattr cls "name" key
                | None => cls
                end) items
      ∧ (kw_given_in h kwargs "extracted_attributes" = None ∧ items = []
         ∨ ∃ le, kw_given_in h kwargs "extracted_attributes" = Some (VDict le)
                 ∧ items = deref h le).
Proof.
  unfold finish.
  destruct (kw_given_in h kwargs "extracted_attributes") as [x|].
  - destruct x; try done. intros [= <- <-]. split; [done|].
    eexists. split; [done|]. right. by eauto.
  - intros [= <- <-]. split; [done|]. exists []. split; [done|]. by left.
Qed.

Lemma render_times_run (n : nat) spider (h : heap) :
  (render_times n spider h).2 = h
  ∧ ∀ text, (generate_spider_code spider h).1 = Ok text →
            (render_times n spider h).1 = Ok (replicate n text).
Proof.
  induction n as [|n [IHh IHt]]; simpl; [done|].
  unfold bind. rewrite generate_spider_code_run. simpl.
  destruct (generate_spider_attributes_code _ _ _).1 as [a|e] eqn:Ha; simpl.
  - destruct (render_times n spider h) as [[ts|e] h1] eqn:Hn; simpl in *.
    + split; [done|]. intros text [= <-].
      specialize (IHt _ ltac:(by rewrite generate_spider_code_run, Ha)).
      by simplify_eq.
    + split; [done|]. intros text [= <-].
      specialize (IHt _ ltac:(by rewrite generate_spider_code_run, Ha)).
      done.
  - done.
Qed.

(** C3, as the code has it: after a declaration whose extracted
    attributes go by ordinary names and that returns the class [cls] in
    heap [h'],
    - a truthy [brand_wikidata] (and a truthy [brand]) is an item of the
      dict that [cls.item_attributes] is, and the same goes for
      [operator_wikidata] and [operator];
    - a truthy [spider_key] is the [name] of the class, whatever [name]
      the body had;
    - the items of a truthy [extracted_attributes] dict are attributes of
      the class itself;
    the first three as long as [extracted_attributes], which is applied
    last, does not bind [item_attributes], respectively [name], itself.
    Rendering the class any number of times afterwards leaves the heap as
    the declaration left it and returns the same text every time. *)
Theorem declaration_enrichment
    name module bases mro body kwargs (h h' : heap) (cls : class_obj) :
  plain_extracted h kwargs →
  declare_class name module bases mro body kwargs h = (Ok cls, h') →
  (∀ q, kw_given_in h kwargs "brand_wikidata" = Some q →
        ¬ rebinds h' kwargs "item_attributes" →
        ∃ l, cls_getattr cls "item_attributes" = Some (VDict l)
             ∧ dict_get "brand_wikidata" (deref h' l) = Some q
             ∧ ∀ text, kw_given_in h kwargs "brand" = Some text →
                       dict_get "brand" (deref h' l) = Some text)
  ∧ (∀ q, kw_given_in h kwargs "operator_wikidata" = Some q →
          ¬ rebinds h' kwargs "item_attributes" →
          ∃ l, cls_getattr cls "item_attributes" = Some (VDict l)
               ∧ dict_get "operator_wikidata" (deref h' l) = Some q
               ∧ ∀ text, kw_given_in h kwargs "operator" = Some text →
                         dict_get "operator" (deref h' l) = Some text)
  ∧ (∀ key, kw_given_in h kwargs "spider_key" = Some key →
            ¬ rebinds h' kwargs "name" →
            dict_get "name" (cls_dict cls) = Some key)
  ∧ (∀ le, kw_given_in h kwargs "extracted_attributes" = Some (VDict le) →
           dict_wf (deref h' le) →
           ∀ k v, dict_get k (deref h' le) = Some v →
                  dict_get k (cls_dict cls) = Some v)
  ∧ (∀ n, (render_times n cls h').2 = h'
          ∧ ∀ text, (generate_spider_code cls h').1 = Ok text →
                    (render_times n cls h').1 = Ok (replicate n text)).
Proof.
  intros Hplain. unfold declare_class. rewrite init_subclass_unfold.
  set (cls0 := Class name module bases mro body).
  destruct (fold_wikidata "brand_wikidata" _ _ _ _) as [[cls1|e] h1] eqn:E1; [|done].
  destruct (fold_wikidata "operator_wikidata" _ _ _ _) as [[cls2|e] h2] eqn:E2; [|done].
  apply fold_wikidata_ok in E1 as (G1 & K1 & D1 & S1 & W1); [|done].
  apply fold_wikidata_ok in E2 as (G2 & K2 & D2 & S2 & W2); [|done].
  intros (-> & items & -> & Hitems)%finish_ok.
  assert (G : heap_grows h h2) by eauto using heap_grows_trans.
  assert (Hkeys : ∀ k, ¬ rebinds h2 kwargs k → k ∉ items.*1).
  { intros k Hk. destruct Hitems as [[_ ->]|(le & Hle & ->)]; [apply not_elem_of_nil|].
    intros Hin. apply Hk. by exists le. }
  set (cls3 := match kw_given_in h2 kwargs "spider_key" with
               | Some key => cls_setattr cls2 "name" key
               | None => cls2
               end).
  assert (Hia : cls_getattr cls3 "item_attributes" = cls_getattr cls2 "item_attributes").
  { unfold cls3. destruct (kw_given_in h2 kwargs "spider_key"); [|done].
    by rewrite cls_getattr_setattr, decide_False. }
  split_and!.
  - intros q Hq Hnot. destruct (W1 q Hq) as (l & Hl & Hw & Ht).
    rewrite (S2 _ Hl) in *. exists l. split_and!.
    + by rewrite cls_getattr_setattrs_notin, Hia by auto.
    + by rewrite K2.
    + intros text Htext. rewrite K2 by done. auto.
  - intros q Hq Hnot.
    destruct (W2 q (kw_given_in_mono _ _ _ _ _ G1 Hq)) as (l & Hl & Hw & Ht).
    exists l. split_and!.
    + by rewrite cls_getattr_setattrs_notin, Hia by auto.
    + done.
    + intros text Htext. eauto using kw_given_in_mono.
  - intros key Hkey Hnot. rewrite cls_dict_setattrs.
    rewrite dict_get_update_notin by auto.
    unfold cls3. rewrite (kw_given_in_mono _ _ _ _ _ G Hkey). simpl.
    by rewrite dict_get_set, decide_True.
  - intros le Hle Hwf k v Hget. rewrite cls_dict_setattrs.
    apply (kw_given_in_mono _ _ _ _ _ G) in Hle.
    destruct Hitems as [[Hnone _]|(le' & Hle' & ->)]; [congruence|].
    simplify_eq. by apply dict_get_update_in.
  - intros n. apply render_times_run.
Qed.

Lemma acme_plain : plain_extracted acme_heap acme_kwargs.
Proof.
  intros le [= <-]. apply (bool_decide_unpack _). by vm_compute.
Qed.

Lemma acme_declaration_ok : acme_declaration = (Ok acme_class, acme_declaration.2).
Proof. by vm_compute. Qed.

Lemma acme_not_rebound (k : string) :
  k ∉ ["start_urls"] → ¬ rebinds acme_declaration.2 acme_kwargs k.
Proof.
  intros Hk (le & Hle & Hin). vm_compute in Hle. simplify_eq.
  apply Hk. vm_compute in Hin. exact Hin.
Qed.

Lemma declaration_enrichment_witness :
  (∃ l, cls_getattr acme_class "item_attributes" = Some (VDict l)
        ∧ dict_get "brand_wikidata" (deref acme_declaration.2 l) = Some (VStr "Q1")
        ∧ dict_get "brand" (deref acme_declaration.2 l) = Some (VStr "Acme"))
  ∧ (∃ l, cls_getattr acme_class "item_attributes" = Some (VDict l)
          ∧ dict_get "operator_wikidata" (deref acme_declaration.2 l)
            = Some (VStr "Q2")
          ∧ dict_get "operator" (deref acme_declaration.2 l)
            = Some (VStr "Acme Holding"))
  ∧ dict_get "name" (cls_dict acme_class) = Some (VStr "new_name")
  ∧ dict_get "start_urls" (cls_dict acme_class)
    = Some (VSeq [VStr "https://acme.example/stores"])
  ∧ (render_times 3 acme_class acme_declaration.2).2 = acme_declaration.2.
Proof.
  destruct (declaration_enrichment _ _ _ _ _ _ _ _ _ acme_plain
              acme_declaration_ok)
    as (Hbrand & Hoperator & Hname & Hextracted & Honce).
  assert (Hia : ¬ rebinds acme_declaration.2 acme_kwargs "item_attributes").
  { apply acme_not_rebound. apply (bool_decide_unpack _). by vm_compute. }
  assert (Hn : ¬ rebinds acme_declaration.2 acme_kwargs "name").
  { apply acme_not_rebound. apply (bool_decide_unpack _). by vm_compute. }
  split_and!.
  - destruct (Hbrand (VStr "Q1") eq_refl Hia) as (l & Hl & Hq & Htext).
    exists l. split_and!; [done..|]. by apply Htext.
  - destruct (Hoperator (VStr "Q2") eq_refl Hia) as (l & Hl & Hq & Htext).
    exists l. split_and!; [done..|]. by apply Htext.
  - by apply Hname.
  - apply (Hextracted 1%positive eq_refl); [|done].
    apply (bool_decide_unpack _). by vm_compute.
  - apply (Honce 3).
Defined.

(** C3 as stated fails: [extracted_attributes] is applied last, and when
    it binds [name] and [item_attributes] itself the class ends with them,
    not with the [spider_key] nor with a dict that holds the
    [brand_wikidata]. *)
Lemma extracted_attributes_override :
  ¬ enrichment_unconditional named_class override_kwargs override_heap
  ∧ ∃ cls' h',
      __init_subclass__ named_class override_kwargs override_heap = (Ok cls', h')
      ∧ cls_getattr cls' "name" = Some (VStr "x")
      ∧ cls_getattr cls' "item_attributes" = Some (VStr "str").
Proof.
  split.
  - intros Hclaim.
    destruct (__init_subclass__ named_class override_kwargs override_heap)
      as [[cls'|e] h'] eqn:Hrun; [|by vm_compute in Hrun].
    destruct (Hclaim _ _ Hrun) as [_ Hname].
    specialize (Hname (VStr "new_name") eq_refl).
    vm_compute in Hrun. injection Hrun as <- <-. by vm_compute in Hname.
  - vm_compute. eexists _, _. split_and!; reflexivity.
Qed.

(** The declared class of the witness, rendered: the new name, and the
    dict that the hook made and filled. *)
Example acme_class_text :
  (generate_spider_code acme_class acme_declaration.2).1
  = Ok (pieces
          ["from locations.automatic_spider_generator import AutomaticSpiderGenerator";
           nl; nl; nl; "class AcmeSpider(AutomaticSpiderGenerator):";
           nl; tab; "name = "; dquote; "new_name"; dquote;
           nl; tab; "item_attributes = {";
           nl; tab; tab; "brand_wikidata = "; dquote; "Q1"; dquote; ",";
           nl; tab; tab; "brand = "; dquote; "Acme"; dquote; ",";
           nl; tab; tab; "operator_wikidata = "; dquote; "Q2"; dquote; ",";
           nl; tab; tab; "operator = "; dquote; "Acme Holding"; dquote; ",";
           nl; tab; "}";
           nl; tab; "start_urls = [";
           nl; tab; tab; dquote; "https://acme.example/stores"; dquote; ",";
           nl; tab; "]"]).
Proof. by vm_compute. Qed.

(** ** Enrichment of an inherited dict *)

Lemma finish_heap cls kwargs (h : heap) : (finish cls kwargs h).2 = h.
Proof.
  unfold finish. destruct (kw_given_in h kwargs "extracted_attributes") as [x|]; [|done].
  by destruct x.
Qed.




(** ** Falsy keywords *)

Lemma dict_get_filter_key (P : string → Prop) `{!∀ k, Decision (P k)}
    (d : dict) (k : string) :
  dict_get k (filter (λ kv, P kv.1) d) = if decide (P k) then dict_get k d else None.
Proof.
  induction d as [|[k' v'] d IH].
  - by case_decide.
  - rewrite (filter_cons (λ kv : string * value, P kv.1) (k', v')). simpl.
    destruct (decide (P k')) as [Hk'|Hk']; simpl.
    + destruct (decide (k = k')) as [->|]; [by rewrite decide_True|done].
    + rewrite IH. destruct (decide (k = k')) as [->|]; [|done].
      by rewrite !(decide_False (P:=P k')) by done.
Qed.

Lemma dict_get_delete (k k' : string) (d : dict) :
  dict_get k' (dict_delete k d) = if decide (k' = k) then None else dict_get k' d.
Proof.
  unfold dict_delete.
  pose proof (dict_get_filter_key (λ x, x ≠ k) d k') as Hfilter.
  etrans; [exact Hfilter|].
  destruct (decide (k' = k)) as [->|Hne].
  - by rewrite decide_False by (by intros []).
  - by rewrite decide_True.
Qed.

Lemma kw_given_delete_ne (k k' : string) (kwargs : dict) (h : heap) :
  k' ≠ k → kw_given (dict_delete k kwargs) k' h = kw_given kwargs k' h.
Proof. intros Hne. unfold kw_given. by rewrite dict_get_delete, decide_False. Qed.

Lemma kw_given_in_delete_ne (k k' : string) (kwargs : dict) (h : heap) :
  k' ≠ k → kw_given_in h (dict_delete k kwargs) k' = kw_given_in h kwargs k'.
Proof. intros Hne. unfold kw_given_in. by rewrite dict_get_delete, decide_False. Qed.

Lemma kw_given_in_delete_eq (k : string) (kwargs : dict) (h : heap) :
  kw_given_in h (dict_delete k kwargs) k = None.
Proof. unfold kw_given_in. by rewrite dict_get_delete, decide_True. Qed.

Lemma kw_given_in_falsy (k : string) (kwargs : dict) (h : heap) (v : value) :
  dict_get k kwargs = Some v → truthy_in h v = false → kw_given_in h kwargs k = None.
Proof. intros Hget Hv. unfold kw_given_in. by rewrite Hget, Hv. Qed.

Lemma fold_wikidata_delete_ne k wikidata label cls kwargs (h : heap) :
  k ≠ wikidata → k ≠ label →
  fold_wikidata wikidata label cls (dict_delete k kwargs) h
  = fold_wikidata wikidata label cls kwargs h.
Proof.
  intros Hw Hlab. unfold fold_wikidata, bind.
  rewrite kw_given_delete_ne by done.
  destruct (kw_given kwargs wikidata h) as [[[q|]|e] h0]; [|done..].
  destruct (ensure_item_attributes cls h0) as [[cls1|e] h1]; [|done].
  destruct (item_attributes_setitem cls1 wikidata q h1) as [[[]|e] h2]; [|done].
  by rewrite kw_given_delete_ne by done.
Qed.

Lemma fold_wikidata_not_given wikidata label cls kwargs (h : heap) :
  kw_given_in h kwargs wikidata = None →
  fold_wikidata wikidata label cls kwargs h = (Ok cls, h).
Proof. intros Hq. unfold fold_wikidata, bind. by rewrite kw_given_run, Hq. Qed.

Lemma finish_delete (k : string) cls kwargs (h : heap) :
  kw_given_in h kwargs k = None →
  finish cls (dict_delete k kwargs) h = finish cls kwargs h.
Proof.
  intros Hk. unfold finish.
  destruct (decide ("spider_key" = k)) as [<-|Hkey].
  - rewrite kw_given_in_delete_eq, Hk.
    by rewrite kw_given_in_delete_ne by done.
  - rewrite (kw_given_in_delete_ne k "spider_key") by done.
    destruct (decide ("extracted_attributes" = k)) as [<-|Hext].
    + by rewrite kw_given_in_delete_eq, Hk.
    + by rewrite (kw_given_in_delete_ne k "extracted_attributes") by done.
Qed.

Lemma falsy_insert (h : heap) (l : loc) (d : dict) (v : value) :
  truthy_in h v = false → (∀ lv, v = VDict lv → lv ≠ l) →
  truthy_in (<[l := d]> h) v = false.
Proof.
  intros Hv Hl. destruct v; simpl in *; try done.
  rewrite deref_insert, decide_False; [done|]. by apply Hl.
Qed.

Lemma falsy_fold_into wikidata label kwargs (l : loc) (h : heap) (v : value) :
  truthy_in h v = false → (∀ lv, v = VDict lv → lv ≠ l) →
  truthy_in (fold_into wikidata label kwargs l h) v = false.
Proof.
  intros Hv Hl. unfold fold_into.
  destruct (kw_given_in h kwargs wikidata); [|done]. simpl.
  destruct (kw_given_in _ kwargs label); eauto using falsy_insert.
Qed.

Lemma fold_into_delete_label wikidata label kwargs (l : loc) (h : heap) (v : value) :
  wikidata ≠ label → dict_get label kwargs = Some v →
  truthy_in h v = false → (∀ lv, v = VDict lv → lv ≠ l) →
  fold_into wikidata label (dict_delete label kwargs) l h
  = fold_into wikidata label kwargs l h.
Proof.
  intros Hne Hget Hv Hl. unfold fold_into.
  rewrite kw_given_in_delete_ne by done.
  destruct (kw_given_in h kwargs wikidata); [|done]. simpl.
  rewrite kw_given_in_delete_eq.
  by rewrite (kw_given_in_falsy label kwargs _ v) by eauto using falsy_insert.
Qed.

Lemma fresh_not_live (h : heap) (l : loc) : l ∈ dom h → l ≠ fresh (dom h).
Proof. intros Hl ->. by apply (is_fresh (dom h)). Qed.

(** A block of the hook keeps falsy what is stably falsy. *)
Lemma fold_wikidata_stable_falsy
    wikidata label cls kwargs (h : heap) cls' (h' : heap) (v : value) :
  fold_wikidata wikidata label cls kwargs h = (Ok cls', h') →
  stable_falsy cls h v → stable_falsy cls' h' v.
Proof.
  intros Hrun Hsf. pose proof Hsf as [Hv Hl].
  destruct (cls_getattr cls "item_attributes") as [x|] eqn:Hx.
  - assert (Hcase : (∃ l, x = VDict l) ∨ (∀ l, x ≠ VDict l))
      by (destruct x; first [by left; eauto | by right]).
    destruct Hcase as [[l ->]|Hnd].
    + rewrite (fold_wikidata_dict _ _ _ _ l) in Hrun by done. simplify_eq.
      split.
      * apply falsy_fold_into; [done|]. intros lv -> ->. by destruct (Hl l).
      * intros lv ->. destruct (Hl lv eq_refl) as [Hdom Hne]. split; [|by rewrite Hx].
        by apply fold_into_dom.
    + rewrite (fold_wikidata_other _ _ _ _ x) in Hrun by done.
      destruct (kw_given_in h kwargs wikidata); by simplify_eq.
  - rewrite fold_wikidata_absent in Hrun by done.
    destruct (kw_given_in h kwargs wikidata); simplify_eq; [|done].
    split.
    + apply falsy_fold_into.
      * apply falsy_insert; [done|]. intros lv ->.
        apply fresh_not_live. by destruct (Hl lv).
      * intros lv ->. apply fresh_not_live. by destruct (Hl lv).
    + intros lv ->. destruct (Hl lv eq_refl) as [Hdom _]. split.
      * apply fold_into_dom. rewrite dom_insert_L. apply elem_of_union. by right.
      * rewrite cls_getattr_setattr, decide_True by done.
        intros [= Heq]. by apply (fresh_not_live h lv Hdom).
Qed.

(** Deleting a stably falsy label does not change its block. *)
Lemma fold_wikidata_delete_label
    wikidata label cls kwargs (h : heap) (v : value) :
  wikidata ≠ label → dict_get label kwargs = Some v →
  stable_falsy cls h v →
  fold_wikidata wikidata label cls (dict_delete label kwargs) h
  = fold_wikidata wikidata label cls kwargs h.
Proof.
  intros Hne Hget [Hv Hl].
  destruct (cls_getattr cls "item_attributes") as [x|] eqn:Hx.
  - assert (Hcase : (∃ l, x = VDict l) ∨ (∀ l, x ≠ VDict l))
      by (destruct x; first [by left; eauto | by right]).
    destruct Hcase as [[l ->]|Hnd].
    + rewrite !(fold_wikidata_dict _ _ _ _ l) by done.
      rewrite (fold_into_delete_label _ _ _ _ _ v); [done..|].
      intros lv -> ->. by destruct (Hl l).
    + rewrite !(fold_wikidata_other _ _ _ _ x) by done.
      by rewrite kw_given_in_delete_ne.
  - rewrite !fold_wikidata_absent by done.
    rewrite kw_given_in_delete_ne by done.
    destruct (kw_given_in h kwargs wikidata); [|done].
    rewrite (fold_into_delete_label _ _ _ _ _ v); [done..| |].
    + apply falsy_insert; [done|]. intros lv ->.
      apply fresh_not_live. by destruct (Hl lv).
    + intros lv ->. apply fresh_not_live. by destruct (Hl lv).
Qed.

Lemma fold_wikidata_delete_falsy
    wikidata label cls kwargs (h : heap) (k : string) (v : value) :
  wikidata ≠ label → dict_get k kwargs = Some v →
  stable_falsy cls h v →
  fold_wikidata wikidata label cls (dict_delete k kwargs) h
  = fold_wikidata wikidata label cls kwargs h.
Proof.
  intros Hne Hget Hsf.
  destruct (decide (k = wikidata)) as [->|Hw].
  - rewrite !fold_wikidata_not_given; [done| |apply kw_given_in_delete_eq].
    eapply kw_given_in_falsy; [done|apply Hsf].
  - destruct (decide (k = label)) as [->|Hlab].
    + by eapply fold_wikidata_delete_label.
    + by apply fold_wikidata_delete_ne.
Qed.

(** C10, as the code has it: a keyword bound to a falsy value that stays
    falsy counts for nothing: the hook does what it does without the
    keyword.  An empty dict stays falsy when it is a live dict other than
    the [item_attributes] of the class, which the hook fills.  When none
    of the four keywords that start a step is given a truthy value, the
    hook returns the class and the heap as they were. *)
Theorem falsy_metadata_ignored cls kwargs (h : heap) :
  (∀ k v, dict_get k kwargs = Some v →
          stable_falsy cls h v →
          __init_subclass__ cls kwargs h
          = __init_subclass__ cls (dict_delete k kwargs) h)
  ∧ ((∀ k, k ∈ ["brand_wikidata"; "operator_wikidata"; "spider_key";
                "extracted_attributes"] →
           kw_given_in h kwargs k = None) →
     __init_subclass__ cls kwargs h = (Ok cls, h)).
Proof.
  split.
  - intros k v Hget Hsf. rewrite !init_subclass_unfold.
    rewrite (fold_wikidata_delete_falsy _ _ _ _ _ k v) by done.
    destruct (fold_wikidata "brand_wikidata" _ _ _ _) as [[cls1|e] h1] eqn:E1; [|done].
    apply (fold_wikidata_stable_falsy _ _ _ _ _ _ _ v) in E1; [|done].
    rewrite (fold_wikidata_delete_falsy _ _ _ _ _ k v) by done.
    destruct (fold_wikidata "operator_wikidata" _ _ _ _) as [[cls2|e] h2] eqn:E2; [|done].
    apply (fold_wikidata_stable_falsy _ _ _ _ _ _ _ v) in E2; [|done].
    symmetry. apply finish_delete.
    eapply kw_given_in_falsy; [done|apply E2].
  - intros Hnone. rewrite init_subclass_unfold.
    rewrite !fold_wikidata_not_given;
      [|apply Hnone; apply (bool_decide_unpack _); by vm_compute..].
    unfold finish. rewrite !Hnone; [done|apply (bool_decide_unpack _); by vm_compute..].
Qed.

Lemma falsy_metadata_ignored_witness :
  __init_subclass__ named_class falsy_kwargs falsy_heap = (Ok named_class, falsy_heap)
  ∧ __init_subclass__ named_class
      [("brand_wikidata", VStr "Q1"); ("spider_key", VStr EmptyString)] falsy_heap
    = __init_subclass__ named_class [("brand_wikidata", VStr "Q1")] falsy_heap
  ∧ __init_subclass__ named_class
      [("spider_key", VStr "acme_2"); ("extracted_attributes", VDict 1%positive)]
      falsy_heap
    = __init_subclass__ named_class [("spider_key", VStr "acme_2")] falsy_heap.
Proof.
  split_and!.
  - apply (falsy_metadata_ignored named_class falsy_kwargs falsy_heap).
    intros k Hk. repeat (apply elem_of_cons in Hk as [->|Hk]; [reflexivity|]).
    by apply elem_of_nil in Hk.
  - change [("brand_wikidata", VStr "Q1")]
      with (dict_delete "spider_key"
              [("brand_wikidata", VStr "Q1"); ("spider_key", VStr EmptyString)]).
    apply (proj1 (falsy_metadata_ignored named_class _ falsy_heap)
             "spider_key" (VStr EmptyString)); [reflexivity|].
    split; [reflexivity|done].
  - change [("spider_key", VStr "acme_2")]
      with (dict_delete "extracted_attributes"
              [("spider_key", VStr "acme_2");
               ("extracted_attributes", VDict 1%positive)]).
    apply (proj1 (falsy_metadata_ignored named_class _ falsy_heap)
             "extracted_attributes" (VDict 1%positive)); [reflexivity|].
    split; [reflexivity|]. intros l [= <-]. split; [|done].
    apply (bool_decide_unpack _). by vm_compute.
Defined.

(** C10 as stated fails: an empty dict is falsy when the hook is called,
    but when it is the [item_attributes] of the class the
    [brand_wikidata] block fills it before the hook asks for its truth
    value, and its items become attributes of the class. *)
Lemma aliased_falsy_dict_not_ignored :
  ¬ falsy_keyword_ignored alias_class alias_kwargs falsy_heap
      "extracted_attributes"
  ∧ ∃ cls' h',
      __init_subclass__ alias_class alias_kwargs falsy_heap = (Ok cls', h')
      ∧ dict_get "brand_wikidata" (cls_dict cls') = Some (VStr "Q1").
Proof.
  split.
  - intros Hclaim.
    specialize (Hclaim (VDict 1%positive) eq_refl eq_refl).
    by vm_compute in Hclaim.
  - vm_compute. eexists _, _. split; reflexivity.
Qed.

(** ** Detection chains *)

Section detection_chains.
Context (method_of : string → Response → M detection).
Context (fetch : Request → Response).

Lemma detection_chain_length b n step response (h h' : heap) :
  detection_chain method_of fetch b n step response h h' → (1 ≤ n)%nat.
Proof. destruct 1; lia. Qed.

Lemma detection_chain_run b n step response (h h' : heap) :
  detection_chain method_of fetch b n step response h h' →
  ∀ fuel, (n ≤ S fuel)%nat →
    run_detection method_of fetch fuel step response h = (Ok (Some b), h').
Proof.
  induction 1 as [step response h h' Hstep
                 |n step response request h h1 h' Hstep Hchain IH];
    intros fuel Hfuel.
  - destruct fuel; simpl; unfold bind; by rewrite Hstep.
  - destruct fuel as [|fuel]; simpl; unfold bind; rewrite Hstep.
    + apply detection_chain_length in Hchain. lia.
    + apply IH. lia.
Qed.

Lemma run_detection_chain fuel b step response (h h' : heap) :
  run_detection method_of fetch fuel step response h = (Ok (Some b), h') →
  ∃ n, (n ≤ S fuel)%nat ∧ detection_chain method_of fetch b n step response h h'.
Proof.
  revert step response h.
  induction fuel as [|fuel IH]; intros step response h; simpl; unfold bind;
    destruct (step response h) as [[[b'|request]|e] h1] eqn:Hstep;
    try done.
  - intros [= -> ->]. exists 1. split; [lia|]. by constructor.
  - intros [= -> ->]. exists 1. split; [lia|]. by constructor.
  - intros (n & Hn & Hchain)%IH. exists (S n). split; [lia|].
    by econstructor.
Qed.

(** C7: a chain of [n ≥ 1] steps, all but the last returning a request
    and the last returning the verdict [b], makes the detection return
    [b] (as soon as it may follow [n - 1] requests): [Detected] for
    [True], [NotDetected] for [False].  And a detection that returns a
    verdict has gone through such a chain: only a boolean verdict of
    some step ends it. *)
Theorem detection_chain_result step response (h : heap) :
  (∀ b n h',
     detection_chain method_of fetch b n step response h h' →
     (1 ≤ n)%nat
     ∧ ∀ fuel, (n ≤ S fuel)%nat →
         run_detection method_of fetch fuel step response h = (Ok (Some b), h'))
  ∧ (∀ fuel b h',
       run_detection method_of fetch fuel step response h = (Ok (Some b), h') →
       ∃ n, (n ≤ S fuel)%nat
            ∧ detection_chain method_of fetch b n step response h h').
Proof.
  split.
  - intros b n h' Hchain. split.
    + by eapply detection_chain_length.
    + by apply detection_chain_run.
  - intros fuel b h'. apply run_detection_chain.
Qed.
End detection_chains.

Lemma detection_chain_result_witness :
  run_detection example_methods example_fetch 1 probe_again home_page ∅
  = (Ok (Some false), ∅)
  ∧ ∃ n, (n ≤ 6)%nat
         ∧ detection_chain example_methods example_fetch true n confirm home_page ∅ ∅.
Proof.
  split.
  - apply (proj1 (detection_chain_result example_methods example_fetch
                    probe_again home_page ∅) false 2 ∅); [|lia].
    eapply chain_probe; [reflexivity|]. by apply chain_verdict.
  - apply (proj2 (detection_chain_result example_methods example_fetch
                    confirm home_page ∅) 5 true ∅).
    reflexivity.
Defined.

(** ** The insertion order of the attributes does not matter *)

Lemma dict_get_perm k (d d' : dict) :
  dict_wf d → d' ≡ₚ d → dict_get k d' = dict_get k d.
Proof.
  intros Hwf Hperm.
  assert (Hwf' : dict_wf d') by (unfold dict_wf; by rewrite Hperm).
  destruct (dict_get k d) as [v|] eqn:Hget.
  - apply dict_get_elem; [done|]. rewrite Hperm. by apply dict_get_Some_elem.
  - apply dict_get_None. apply dict_get_None in Hget. by rewrite Hperm.
Qed.

Lemma sorted_items_perm_eq (d d' : dict) :
  dict_wf d → d' ≡ₚ d → sorted_items d' = sorted_items d.
Proof.
  intros Hwf Hperm. unfold sorted_items.
  apply (Sorted_unique_strong item_le).
  - intros [k1 v1] [k2 v2] H1 H2 Hle Hge.
    rewrite merge_sort_Permutation in H1, H2. rewrite Hperm in H1.
    assert (k1 = k2) as -> by (by apply (anti_symm String.le)).
    f_equal. apply (dict_get_elem _ _ _ Hwf) in H1, H2. congruence.
  - apply Sorted_merge_sort, _.
  - apply Sorted_merge_sort, _.
  - by rewrite !merge_sort_Permutation.
Qed.

Lemma select_ext (d d' : dict) (ks : list string) :
  (∀ k, dict_get k d' = dict_get k d) → select d' ks = select d ks.
Proof.
  intros Hget. unfold select. induction ks as [|k ks IH]; [done|].
  simpl. rewrite Hget. destruct (dict_get k d); simpl; [f_equal|]; exact IH.
Qed.

(** Two definitions that differ in the order of their attributes only
    have the same text. *)
Lemma rendering_ignores_insertion_order spider (body' : dict) (h : heap) :
  dict_wf (cls_dict spider) →
  body' ≡ₚ cls_dict spider →
  generate_spider_code
    (Class (cls_name spider) (cls_module spider) (cls_bases spider)
           (cls_mro spider) body') h
  = generate_spider_code spider h.
Proof.
  intros Hwf Hperm.
  set (spider' := Class _ _ _ _ body').
  assert (Hwf' : dict_wf (cls_dict spider')) by (unfold dict_wf; simpl; by rewrite Hperm).
  assert (Hattrs : spider_attributes spider' ≡ₚ spider_attributes spider).
  { rewrite !spider_attributes_filter by done. simpl. by rewrite Hperm. }
  assert (Hget : ∀ k, dict_get k (spider_attributes spider')
                      = dict_get k (spider_attributes spider)).
  { intros k. apply dict_get_perm; [apply spider_attributes_wf|done]. }
  assert (Hsorted : spider_attributes_sorted spider' default_sort_order
                    = spider_attributes_sorted spider default_sort_order).
  { rewrite !spider_attributes_sorted_eq by apply default_sort_order_NoDup.
    rewrite (select_ext _ _ _ Hget).
    rewrite (sorted_items_perm_eq (spider_attributes spider))
      by (apply spider_attributes_wf || done).
    f_equal. f_equal. apply list_filter_iff. intros k.
    unfold dict_has. by rewrite Hget. }
  rewrite !generate_spider_code_run, !generate_spider_attributes_code_run.
  by rewrite Hsorted.
Qed.


(** * Further properties of the synthesizer *)

(** ** Which definitions cannot be rendered *)

Lemma attribute_lines_raise (h : heap) (kv : string * value) (e : exn) :
  attribute_lines h kv = Raise e ↔ sized_not_iterable kv.2 = true ∧ e = TypeError.
Proof.
  destruct kv as [k v]. unfold attribute_lines. simpl.
  destruct v as [| | | | | | |[]|truth [] [xs|]]; split;
    first [ by intros [= <-] | by intros [_ ->] | done | by intros [? ?] ].
Qed.

Lemma sized_not_iterable_spec (v : value) :
  sized_not_iterable v = true
  ↔ (∀ l, v ≠ VDict l) ∧ (∀ s, v ≠ VStr s) ∧ has_len v = true
    ∧ ∀ h : heap, (iterate v h).1 = Raise TypeError.
Proof.
  split.
  - destruct v as [| | | | | | |[]|truth [] [xs|]]; try done.
  - intros (Hdict & Hstr & Hlen & Hiter).
    destruct v as [| | |s|xs|l| |[]|truth [] [xs|]]; try done.
    + by destruct (Hstr s).
    + by specialize (Hiter ∅).
    + by destruct (Hdict l).
    + by specialize (Hiter ∅).
Qed.

Lemma result_mapM_raise {A B} (f : A → result B) (l : list A) (e : exn) :
  result_mapM f l = Raise e → ∃ a, a ∈ l ∧ f a = Raise e.
Proof.
  induction l as [|a l IH]; simpl; [done|].
  destruct (f a) as [b|e'] eqn:Hfa.
  - destruct (result_mapM f l) as [bs|e'']; simpl; [done|].
    intros [= ->]. destruct (IH eq_refl) as (a' & Hin & Ha').
    exists a'. split; [by right|done].
  - intros [= ->]. exists a. split; [left|done].
Qed.

Lemma result_mapM_Ok_all {A B} (f : A → result B) (l : list A) (bs : list B) :
  result_mapM f l = Ok bs → ∀ a, a ∈ l → ∃ b, f a = Ok b.
Proof.
  revert bs. induction l as [|a l IH]; intros bs; simpl.
  - intros _ a' Ha'. by apply elem_of_nil in Ha'.
  - destruct (f a) as [b|e] eqn:Hfa; [|done].
    destruct (result_mapM f l) as [bs'|e]; simpl; [|done].
    intros _ a' [->|Hin]%elem_of_cons; [by eauto|]. by eapply IH.
Qed.

(** Rendering returns a text or raises [TypeError], and it raises exactly
    when some attribute that is kept (no leading underscore) is bound to a
    value that the synthesizer takes for an array and cannot iterate: a
    value that is neither a dict nor a string, has [__len__], and raises
    when iterated. *)
Theorem rendering_raises_iff spider (h : heap) :
  dict_wf (cls_dict spider) →
  (generate_spider_code spider h = (Raise TypeError, h)
   ↔ ∃ k v, dict_get k (cls_dict spider) = Some v
            ∧ String.prefix "_" k = false
            ∧ (∀ l, v ≠ VDict l) ∧ (∀ s, v ≠ VStr s) ∧ has_len v = true
            ∧ ∀ h' : heap, (iterate v h').1 = Raise TypeError)
  ∧ ((∃ text, generate_spider_code spider h = (Ok text, h))
     ↔ ¬ ∃ k v, dict_get k (cls_dict spider) = Some v
                ∧ String.prefix "_" k = false
                ∧ (∀ l, v ≠ VDict l) ∧ (∀ s, v ≠ VStr s) ∧ has_len v = true
                ∧ ∀ h' : heap, (iterate v h').1 = Raise TypeError).
Proof.
  intros Hwf.
  rewrite generate_spider_code_run, generate_spider_attributes_code_run. simpl.
  destruct (result_mapM (attribute_lines h) _) as [bs|e] eqn:Hmap; simpl.
  - assert (Hnone : ¬ ∃ k v, dict_get k (cls_dict spider) = Some v
                             ∧ String.prefix "_" k = false
                             ∧ (∀ l, v ≠ VDict l) ∧ (∀ s, v ≠ VStr s)
                             ∧ has_len v = true
                             ∧ ∀ h' : heap, (iterate v h').1 = Raise TypeError).
    { intros (k & v & Hget & Hpre & Hv).
      apply sized_not_iterable_spec in Hv.
      destruct (result_mapM_Ok_all _ _ _ Hmap (k, v)) as [b Hb].
      - apply elem_of_spider_attributes_sorted; [done|]. split; [done|].
        unfold kept. simpl. rewrite Hpre. by destruct v.
      - assert (attribute_lines h (k, v) = Raise TypeError) as Hraise
          by by apply attribute_lines_raise.
        congruence. }
    split; split; [done|by intros ?%Hnone|done|by eauto].
  - apply result_mapM_raise in Hmap as ([k v] & Hin & [Hv ->]%attribute_lines_raise).
    simpl in Hv.
    apply elem_of_spider_attributes_sorted in Hin as [Hget Hkept]; [|done].
    assert (Hex : ∃ k v, dict_get k (cls_dict spider) = Some v
                         ∧ String.prefix "_" k = false
                         ∧ (∀ l, v ≠ VDict l) ∧ (∀ s, v ≠ VStr s)
                         ∧ has_len v = true
                         ∧ ∀ h' : heap, (iterate v h').1 = Raise TypeError).
    { exists k, v. split; [done|]. split.
      - unfold kept in Hkept. simpl in Hkept. by destruct (String.prefix "_" k).
      - by apply sized_not_iterable_spec. }
    split; split; [done|done|by intros [? ?]|done].
Qed.

Lemma rendering_raises_iff_witness :
  generate_spider_code sized_class_spider ∅ = (Raise TypeError, ∅)
  ∧ generate_spider_code
      (Class "S" "m" [] [] [("sizes", VObj true true None)]) ∅
    = (Raise TypeError, ∅)
  ∧ (∃ text, generate_spider_code
               (Class "S" "m" [] []
                  [("colours", VObj true true (Some [VStr "red"]))]) ∅
             = (Ok text, ∅))
  ∧ ∃ text, generate_spider_code private_and_none_spider ∅ = (Ok text, ∅).
Proof.
  split_and!.
  - apply (rendering_raises_iff sized_class_spider ∅).
    + apply (bool_decide_unpack _). by vm_compute.
    + exists "container", (VType true). by split_and!.
  - apply (rendering_raises_iff (Class "S" "m" [] [] _) ∅).
    + apply (bool_decide_unpack _). by vm_compute.
    + exists "sizes", (VObj true true None). by split_and!.
  - apply (rendering_raises_iff (Class "S" "m" [] [] _) ∅).
    + apply (bool_decide_unpack _). by vm_compute.
    + intros (k & v & Hget & _ & _ & _ & _ & Hiter).
      apply dict_get_Some_elem in Hget.
      apply list_elem_of_singleton in Hget as [= -> ->].
      by specialize (Hiter ∅).
  - apply (rendering_raises_iff private_and_none_spider ∅).
    + apply (bool_decide_unpack _). by vm_compute.
    + intros (k & v & Hget & Hpre & _ & Hstr & Hlen & _).
      apply dict_get_Some_elem in Hget.
      unfold private_and_none_spider in Hget. simpl in Hget.
      repeat (apply elem_of_cons in Hget as [[= -> ->]|Hget];
              [first [done|by destruct (Hstr "s")]|]).
      by apply elem_of_nil in Hget.
Defined.

(** ** Any sort order keeps every attribute, once *)

Lemma elem_of_dict_set x k v (d : dict) :
  x ∈ dict_set k v d → x = (k, v) ∨ x ∈ d.
Proof.
  induction d as [|[k' v'] d IH]; simpl.
  - intros ->%list_elem_of_singleton. by left.
  - case_decide.
    + intros [->|Hin]%elem_of_cons; [by left|]. right. by right.
    + intros [->|Hin]%elem_of_cons; [right; left|].
      destruct (IH Hin) as [->|Hd]; [by left|]. right. by right.
Qed.

Lemma elem_of_dict_update x (d o : dict) :
  x ∈ dict_update d o → x ∈ d ∨ x ∈ o.
Proof.
  unfold dict_update. revert d.
  induction o as [|[k v] o IH]; intros d; simpl; [by left|].
  intros [[->|Hd]%elem_of_dict_set|Ho]%IH.
  - right. left.
  - by left.
  - right. by right.
Qed.

Lemma elem_of_dict_comp x (items : list (string * value)) :
  x ∈ dict_comp items → x ∈ items.
Proof.
  intros [Hnil|Hin]%elem_of_dict_update; [by apply elem_of_nil in Hnil|done].
Qed.

(** A list of items taken from the dict [d] looks up like [d]. *)
Lemma dict_get_graph (d l : dict) (k : string) :
  (∀ k' v, (k', v) ∈ l → dict_get k' d = Some v) →
  dict_get k l = if decide (k ∈ l.*1) then dict_get k d else None.
Proof.
  induction l as [|[k' v'] l IH]; intros Hgraph.
  - case_decide as Hin; [by apply elem_of_nil in Hin|done].
  - rewrite fmap_cons. cbn [dict_get fst].
    destruct (decide (k = k')) as [->|Hne].
    + rewrite decide_True by left. symmetry. apply Hgraph. left.
    + rewrite IH by (intros ? ? ?; apply Hgraph; by right).
      destruct (decide (k ∈ l.*1)) as [Hin|Hnin].
      * rewrite decide_True; [done|]. by right.
      * rewrite decide_False; [done|]. by intros [?|?]%elem_of_cons.
Qed.

Lemma dict_get_comp_select (d : dict) (ks : list string) (k : string) :
  dict_get k (dict_comp (select d ks))
  = if decide (k ∈ ks) then dict_get k d else None.
Proof.
  unfold dict_comp. rewrite dict_get_update. simpl.
  rewrite (dict_get_graph d).
  - destruct (decide (k ∈ (reverse (select d ks)).*1)) as [Hin|Hnin].
    + apply list_elem_of_fmap in Hin as ([k' v] & -> & Hin).
      apply elem_of_reverse, elem_of_select in Hin as [Hk Hget]. simpl.
      rewrite decide_True by done. by rewrite Hget.
    + destruct (decide (k ∈ ks)) as [Hk|]; [|done].
      destruct (dict_get k d) as [v|] eqn:Hget; [|done].
      destruct Hnin. apply list_elem_of_fmap. exists (k, v). split; [done|].
      by apply elem_of_reverse, elem_of_select.
  - intros k' v Hin. by apply elem_of_reverse, elem_of_select in Hin as [_ ?].
Qed.

Lemma dict_perm_of_get (d d' : dict) :
  dict_wf d → dict_wf d' → (∀ k, dict_get k d = dict_get k d') → d ≡ₚ d'.
Proof.
  intros Hwf Hwf' Hget.
  apply NoDup_Permutation; [by eapply NoDup_fmap_1..|].
  intros [k v]. split; intros Hin.
  - apply dict_get_Some_elem. rewrite <-Hget. by apply dict_get_elem.
  - apply dict_get_Some_elem. rewrite Hget. by apply dict_get_elem.
Qed.

Lemma spider_attributes_sorted_wf spider (sort_order : list string) :
  dict_wf (spider_attributes_sorted spider sort_order).
Proof. apply dict_update_wf, dict_comp_wf. Qed.

Lemma spider_attributes_sorted_get spider (sort_order : list string) (k : string) :
  dict_get k (spider_attributes_sorted spider sort_order)
  = dict_get k (spider_attributes spider).
Proof.
  unfold spider_attributes_sorted.
  pose proof (spider_attributes_wf spider) as Hwf.
  set (attrs := spider_attributes spider) in *.
  rewrite dict_get_update, dict_get_reverse by apply dict_comp_wf.
  rewrite !dict_get_comp_select.
  rewrite (dict_comp_id (sorted_items attrs)) by by apply sorted_items_wf.
  destruct (decide (k ∈ filter (λ k0, k0 ∉ sort_order) (sorted_items attrs).*1))
    as [Hin|Hnin].
  - destruct (dict_get k attrs) as [v|] eqn:Hget; [done|].
    apply list_elem_of_filter in Hin as [Hso Hin].
    rewrite sorted_items_perm in Hin. by apply dict_get_None in Hget.
  - destruct (decide (k ∈ filter (λ k0, dict_has k0 attrs) sort_order))
      as [Hin'|Hnin']; [done|].
    destruct (dict_get k attrs) as [v|] eqn:Hget; [|done].
    assert (Hk : k ∈ attrs.*1) by (apply dict_get_is_Some; by eauto).
    destruct (decide (k ∈ sort_order)) as [Hso|Hso].
    + destruct Hnin'. apply list_elem_of_filter. split; [|done].
      by apply Is_true_true, dict_has_spec.
    + destruct Hnin. apply list_elem_of_filter. split; [done|].
      by rewrite sorted_items_perm.
Qed.

Lemma spider_attributes_sorted_perm spider (sort_order : list string) :
  spider_attributes_sorted spider sort_order ≡ₚ spider_attributes spider.
Proof.
  apply dict_perm_of_get.
  - apply spider_attributes_sorted_wf.
  - apply spider_attributes_wf.
  - apply spider_attributes_sorted_get.
Qed.

(** Whatever [sort_order] is given (names that no attribute has, names
    given twice, no name at all), the attributes rendered are the kept
    attributes, each one once and with its value.  When the names of
    [sort_order] are distinct, those that are attributes come first, in
    the order of [sort_order], and the others follow in strictly ascending
    key order. *)
Theorem any_sort_order_keeps_attributes spider (sort_order : list string) :
  spider_attributes_sorted spider sort_order ≡ₚ spider_attributes spider
  ∧ (NoDup sort_order →
     ∃ listed others : dict,
       spider_attributes_sorted spider sort_order = listed ++ others
       ∧ listed.*1 = filter (λ k, k ∈ (spider_attributes spider).*1) sort_order
       ∧ Forall (λ k, k ∉ sort_order) others.*1
       ∧ StronglySorted key_lt others.*1).
Proof.
  split; [apply spider_attributes_sorted_perm|].
  intros Hso.
  pose proof (spider_attributes_wf spider) as Hwf.
  set (attrs := spider_attributes spider) in *.
  exists (select attrs (filter (λ k, dict_has k attrs) sort_order)),
         (filter (λ kv, kv.1 ∉ sort_order) (sorted_items attrs)).
  pose proof (filter_fst (λ k, k ∉ sort_order)) as Hfst.
  split_and!.
  - by apply spider_attributes_sorted_eq.
  - rewrite select_keys.
    + apply list_filter_iff. intros k. by rewrite <-dict_has_spec, Is_true_true.
    + apply Forall_forall. intros k [Hk _]%list_elem_of_filter.
      by apply dict_has_spec, Is_true_true.
  - rewrite Hfst. apply Forall_forall. by intros k [Hk _]%list_elem_of_filter.
  - rewrite Hfst. apply StronglySorted_filter, sorted_keys_lt.
    + apply StronglySorted_merge_sort; apply _.
    + by apply sorted_items_wf.
Qed.

Lemma spider_attributes_sorted_own spider (sort_order : list string) k v :
  (k, v) ∈ spider_attributes_sorted spider sort_order →
  (k, v) ∈ cls_dict spider ∧ v ≠ VNone ∧ String.prefix "_" k = false.
Proof.
  intros Hin. rewrite spider_attributes_sorted_perm in Hin.
  apply elem_of_dict_comp, list_elem_of_filter in Hin as [Hkept Hin].
  split; [done|]. unfold kept in Hkept. simpl in Hkept.
  destruct (String.prefix "_" k); [done|]. split; [|done]. by intros ->.
Qed.

(** Only attributes of the class's own namespace are rendered, never one
    that is bound to [None] or whose name starts with an underscore, and
    no key twice; an attribute that the class only inherits is not
    rendered. *)
Theorem rendered_attributes_own spider (sort_order : list string) (h : heap) :
  generate_spider_attributes_code spider sort_order h
  = (result_map pieces
       (result_mapM (attribute_lines h) (spider_attributes_sorted spider sort_order)),
     h)
  ∧ NoDup (spider_attributes_sorted spider sort_order).*1
  ∧ (∀ k v, (k, v) ∈ spider_attributes_sorted spider sort_order →
            (k, v) ∈ cls_dict spider ∧ v ≠ VNone ∧ String.prefix "_" k = false)
  ∧ (∀ k, dict_get k (cls_dict spider) = None →
          k ∉ (spider_attributes_sorted spider sort_order).*1).
Proof.
  split_and!.
  - apply generate_spider_attributes_code_run.
  - apply spider_attributes_sorted_wf.
  - apply spider_attributes_sorted_own.
  - intros k Hnone ([k' v] & -> & Hin)%list_elem_of_fmap. simpl in Hnone.
    apply spider_attributes_sorted_own in Hin as [Hin _].
    apply dict_get_None in Hnone.
    apply Hnone, list_elem_of_fmap. by exists (k', v).
Qed.

(** ** Rendering and the heap *)

Lemma result_mapM_ext {A B} (f g : A → result B) (l : list A) :
  (∀ a, a ∈ l → f a = g a) → result_mapM f l = result_mapM g l.
Proof.
  induction l as [|a l IH]; intros Hfg; simpl; [done|].
  rewrite (Hfg a) by left. rewrite IH; [done|].
  intros a' Ha'. apply Hfg. by right.
Qed.

(** The text of a class depends on the heap through the dicts that the
    class's own attributes are bound to, and on no other dict. *)
Theorem rendering_reads_own_dicts spider (h h' : heap) :
  (∀ k l, (k, VDict l) ∈ cls_dict spider → deref h' l = deref h l) →
  (generate_spider_code spider h').1 = (generate_spider_code spider h).1.
Proof.
  intros Hsame.
  rewrite !generate_spider_code_run, !generate_spider_attributes_code_run. simpl.
  rewrite (result_mapM_ext (attribute_lines h') (attribute_lines h)); [done|].
  intros [k v] Hin. apply spider_attributes_sorted_own in Hin as [Hin _].
  unfold attribute_lines. simpl. destruct v; try done.
  by rewrite (Hsame k l).
Qed.

(** * Further properties of the declaration hook *)

(** ** What the hook leaves alone *)

Lemma dict_set_keys_prefix k v (d : dict) : d.*1 `prefix_of` (dict_set k v d).*1.
Proof.
  rewrite dict_set_keys. case_decide; [done|]. by apply prefix_app_r.
Qed.

Lemma dict_update_keys_prefix (d o : dict) : d.*1 `prefix_of` (dict_update d o).*1.
Proof.
  unfold dict_update. revert d.
  induction o as [|[k v] o IH]; intros d; simpl; [done|].
  etrans; [apply (dict_set_keys_prefix k v)|apply IH].
Qed.

Lemma dict_set_keys_mono k v (d : dict) k' : k' ∈ d.*1 → k' ∈ (dict_set k v d).*1.
Proof.
  intros Hin. destruct (dict_set_keys_prefix k v d) as [rest ->].
  apply elem_of_app. by left.
Qed.

Lemma fold_into_keys wikidata label kwargs (l : loc) (h : heap) (l' : loc) k :
  k ∈ (deref h l').*1 → k ∈ (deref (fold_into wikidata label kwargs l h) l').*1.
Proof.
  intros Hk. unfold fold_into.
  destruct (kw_given_in h kwargs wikidata); [|done]. simpl.
  assert (Hk1 : k ∈ (deref (<[l := dict_set wikidata v (deref h l)]> h) l').*1).
  { rewrite deref_insert. case_decide; [|done]. subst. by apply dict_set_keys_mono. }
  destruct (kw_given_in _ kwargs label); [|done].
  rewrite deref_insert. case_decide; [|done]. subst. by apply dict_set_keys_mono.
Qed.

(** One block of the hook, whatever its outcome. *)
Lemma fold_wikidata_frame wikidata label cls kwargs (h : heap) r (h' : heap) :
  fold_wikidata wikidata label cls kwargs h = (r, h') →
  (∀ l k, k ≠ wikidata → k ≠ label →
     dict_get k (deref h' l) = dict_get k (deref h l))
  ∧ (∀ l k, k ∈ (deref h l).*1 → k ∈ (deref h' l).*1)
  ∧ (∀ l, l ∈ dom h → cls_getattr cls "item_attributes" ≠ Some (VDict l) →
          h' !! l = h !! l)
  ∧ dom h ⊆ dom h'
  ∧ (∀ cls', r = Ok cls' →
       cls' = cls
       ∨ cls_getattr cls "item_attributes" = None
         ∧ cls' = cls_setattr cls "item_attributes" (VDict (fresh (dom h)))).
Proof.
  destruct (cls_getattr cls "item_attributes") as [x|] eqn:Hx.
  - assert (Hcase : (∃ l, x = VDict l) ∨ (∀ l, x ≠ VDict l))
      by (destruct x; first [by left; eauto | by right]).
    destruct Hcase as [[l0 ->]|Hnd].
    + rewrite (fold_wikidata_dict _ _ _ _ l0) by done. intros [= <- <-].
      split_and!.
      * intros. by apply fold_into_other_key.
      * intros. by apply fold_into_keys.
      * intros l Hl Hne. apply fold_into_other_loc. by intros ->.
      * apply fold_into_dom.
      * intros cls' [= <-]. by left.
    + rewrite (fold_wikidata_other _ _ _ _ x) by done.
      destruct (kw_given_in h kwargs wikidata); intros [= <- <-];
        (split_and!; [done..|]); [done|]. intros cls' [= <-]. by left.
  - rewrite fold_wikidata_absent by done.
    destruct (kw_given_in h kwargs wikidata); intros [= <- <-].
    + split_and!.
      * intros. by rewrite fold_into_other_key, deref_alloc.
      * intros l k Hk. apply fold_into_keys. by rewrite deref_alloc.
      * intros l Hl _. rewrite fold_into_other_loc by by apply fresh_not_live.
        apply lookup_insert_ne. intros Heq. by apply (fresh_not_live h l).
      * etrans; [|apply fold_into_dom]. rewrite dom_insert_L.
        apply union_subseteq_r.
      * intros cls' [= <-]. by right.
    + split_and!; [done..|]. intros cls' [= <-]. by left.
Qed.

(** The hook never removes an item from a dict, and the four items it
    folds are the only ones whose value it may set: whether it returns or
    raises, in every dict every key is still there and every item other
    than [brand_wikidata], [brand], [operator_wikidata] and [operator]
    has the value it had. *)
Theorem hook_keeps_items cls kwargs (h : heap) (l : loc) (k : string) :
  (k ∈ (deref h l).*1 → k ∈ (deref (__init_subclass__ cls kwargs h).2 l).*1)
  ∧ (k ∉ ["brand_wikidata"; "brand"; "operator_wikidata"; "operator"] →
     dict_get k (deref (__init_subclass__ cls kwargs h).2 l)
     = dict_get k (deref h l)).
Proof.
  rewrite init_subclass_unfold.
  destruct (fold_wikidata "brand_wikidata" _ _ _ _) as [r1 h1] eqn:E1.
  apply fold_wikidata_frame in E1 as (K1 & M1 & _).
  assert (Hnot : k ∉ ["brand_wikidata"; "brand"; "operator_wikidata"; "operator"] →
                 k ≠ "brand_wikidata" ∧ k ≠ "brand"
                 ∧ k ≠ "operator_wikidata" ∧ k ≠ "operator").
  { intros Hk. split_and!; intros ->; apply Hk;
      apply (bool_decide_unpack _); by vm_compute. }
  destruct r1 as [cls1|e]; simpl.
  - destruct (fold_wikidata "operator_wikidata" _ _ _ _) as [r2 h2] eqn:E2.
    apply fold_wikidata_frame in E2 as (K2 & M2 & _).
    assert (Hh : (match r2 with
                  | Ok cls2 => finish cls2 kwargs h2
                  | Raise e => (Raise e, h2)
                  end).2 = h2).
    { destruct r2; [apply finish_heap|done]. }
    rewrite Hh. split; [by auto|].
    intros (? & ? & ? & ?)%Hnot. by rewrite K2, K1.
  - split; [by auto|]. intros (? & ? & ? & ?)%Hnot. by rewrite K1.
Qed.

Lemma hook_keeps_items_witness :
  dict_get "country"
    (deref (__init_subclass__ chain_child
              [("brand_wikidata", VStr "Q9"); ("brand", VStr "Other")]
              shared_heap).2 1%positive)
  = Some (VStr "PL")
  ∧ "brand" ∈ (deref (__init_subclass__ chain_child
                        [("brand_wikidata", VStr "Q9"); ("brand", VStr "Other")]
                        shared_heap).2 1%positive).*1.
Proof.
  split.
  - rewrite (proj2 (hook_keeps_items chain_child _ shared_heap 1%positive "country")).
    + reflexivity.
    + apply (bool_decide_unpack _). by vm_compute.
  - apply hook_keeps_items. apply (bool_decide_unpack _). by vm_compute.
Defined.

(** The hook writes one dict at most: the [item_attributes] of the class
    when that is a dict (its own or an inherited one), and otherwise a
    dict that was not there before.  Whether the hook returns or raises,
    every other dict of the heap is as it was. *)
Theorem hook_writes_one_dict cls kwargs (h : heap) :
  (∀ l0, cls_getattr cls "item_attributes" = Some (VDict l0) →
         ∀ l, l ≠ l0 → (__init_subclass__ cls kwargs h).2 !! l = h !! l)
  ∧ ((∀ l0, cls_getattr cls "item_attributes" ≠ Some (VDict l0)) →
     ∀ l, l ∈ dom h → (__init_subclass__ cls kwargs h).2 !! l = h !! l).
Proof.
  split.
  - intros l0 Hl0 l Hl. rewrite init_subclass_unfold.
    rewrite !(fold_wikidata_dict _ _ _ _ l0) by done.
    rewrite finish_heap. by rewrite !fold_into_other_loc.
  - intros Hnd l Hl. rewrite init_subclass_unfold.
    destruct (fold_wikidata "brand_wikidata" _ _ _ _) as [r1 h1] eqn:E1.
    apply fold_wikidata_frame in E1 as (_ & _ & F1 & D1 & C1).
    destruct r1 as [cls1|e]; simpl; [|by apply F1].
    destruct (fold_wikidata "operator_wikidata" _ _ _ _) as [r2 h2] eqn:E2.
    apply fold_wikidata_frame in E2 as (_ & _ & F2 & _).
    assert (Hh : (match r2 with
                  | Ok cls2 => finish cls2 kwargs h2
                  | Raise e => (Raise e, h2)
                  end).2 = h2).
    { destruct r2; [apply finish_heap|done]. }
    rewrite Hh, F2, F1; [done..| |].
    + by apply D1.
    + destruct (C1 cls1 eq_refl) as [->|[_ ->]]; [done|].
      rewrite cls_getattr_setattr, decide_True by done.
      intros [= Heq]. by apply (fresh_not_live h l).
Qed.

Lemma hook_writes_one_dict_witness :
  (__init_subclass__ chain_child chain_kwargs two_dict_heap).2 !! 2%positive
  = two_dict_heap !! 2%positive
  ∧ (__init_subclass__ named_class chain_kwargs two_dict_heap).2 !! 1%positive
    = two_dict_heap !! 1%positive.
Proof.
  split.
  - by apply (proj1 (hook_writes_one_dict chain_child chain_kwargs two_dict_heap)
                1%positive).
  - apply (proj2 (hook_writes_one_dict named_class chain_kwargs two_dict_heap)).
    + done.
    + apply (bool_decide_unpack _). by vm_compute.
Defined.

(** ** What the hook does to the namespace of the class *)

Lemma cls_fields_setattrs (cls : class_obj) (items : dict) :
  cls_name (foldl (λ cls kv, cls_setattr cls kv.1 kv.2) cls items) = cls_name cls
  ∧ cls_module (foldl (λ cls kv, cls_setattr cls kv.1 kv.2) cls items) = cls_module cls
  ∧ cls_bases (foldl (λ cls kv, cls_setattr cls kv.1 kv.2) cls items) = cls_bases cls.
Proof.
  revert cls. induction items as [|[k v] items IH]; intros cls; simpl; [done|].
  destruct (IH (cls_setattr cls k v)) as (-> & -> & ->). done.
Qed.

(** A declaration whose extracted attributes go by ordinary names, and
    that returns, has changed nothing of the class but its namespace;
    there, the attributes of the body are still bound, in the order of the
    body, with what the hook adds after them, and an attribute keeps its
    value unless the hook binds it: [name] under a truthy [spider_key],
    [item_attributes] when the class had none, and the keys of a truthy
    [extracted_attributes]. *)
Theorem hook_keeps_namespace cls kwargs (h : heap) cls' (h' : heap) :
  plain_extracted h kwargs →
  __init_subclass__ cls kwargs h = (Ok cls', h') →
  cls_name cls' = cls_name cls
  ∧ cls_module cls' = cls_module cls
  ∧ cls_bases cls' = cls_bases cls
  ∧ cls_mro cls' = cls_mro cls
  ∧ (cls_dict cls).*1 `prefix_of` (cls_dict cls').*1
  ∧ ∀ k, (k = "name" → kw_given_in h' kwargs "spider_key" = None) →
         (k = "item_attributes" → is_Some (cls_getattr cls "item_attributes")) →
         ¬ rebinds h' kwargs k →
         dict_get k (cls_dict cls') = dict_get k (cls_dict cls).
Proof.
  intros Hplain. rewrite init_subclass_unfold.
  destruct (fold_wikidata "brand_wikidata" _ _ _ _) as [[cls1|e] h1] eqn:E1; [|done].
  destruct (fold_wikidata "operator_wikidata" _ _ _ _) as [[cls2|e] h2] eqn:E2; [|done].
  apply fold_wikidata_frame in E1 as (_ & _ & _ & _ & C1).
  apply fold_wikidata_frame in E2 as (_ & _ & _ & _ & C2).
  specialize (C1 cls1 eq_refl). specialize (C2 cls2 eq_refl).
  intros (-> & items & -> & Hitems)%finish_ok.
  set (cls3 := match kw_given_in h2 kwargs "spider_key" with
               | Some key => cls_setattr cls2 "name" key
               | None => cls2
               end).
  assert (H12 : (cls_name cls2 = cls_name cls ∧ cls_module cls2 = cls_module cls
                 ∧ cls_bases cls2 = cls_bases cls ∧ cls_mro cls2 = cls_mro cls)
                ∧ (cls_dict cls).*1 `prefix_of` (cls_dict cls2).*1
                ∧ ∀ k, (k = "item_attributes" →
                        is_Some (cls_getattr cls "item_attributes")) →
                       dict_get k (cls_dict cls2) = dict_get k (cls_dict cls)).
  { destruct C1 as [->|[Hnone1 ->]].
    - destruct C2 as [->|[Hnone2 ->]]; [done|].
      split_and!; [done..|apply dict_set_keys_prefix|].
      intros k Hk. simpl. rewrite dict_get_set. case_decide; [|done].
      subst k. destruct (Hk eq_refl) as [x Hx]. congruence.
    - destruct C2 as [->|[Hnone2 ->]].
      + split_and!; [done..|apply dict_set_keys_prefix|].
        intros k Hk. simpl. rewrite dict_get_set. case_decide; [|done].
        subst k. destruct (Hk eq_refl) as [x Hx]. congruence.
      + rewrite cls_getattr_setattr, decide_True in Hnone2 by done. done. }
  destruct H12 as ((Hn & Hm & Hb & Hmro) & Hpre & Hget).
  assert (H3 : (cls_name cls3 = cls_name cls2 ∧ cls_module cls3 = cls_module cls2
                ∧ cls_bases cls3 = cls_bases cls2 ∧ cls_mro cls3 = cls_mro cls2)
               ∧ (cls_dict cls2).*1 `prefix_of` (cls_dict cls3).*1
               ∧ ∀ k, (k = "name" → kw_given_in h2 kwargs "spider_key" = None) →
                      dict_get k (cls_dict cls3) = dict_get k (cls_dict cls2)).
  { unfold cls3. destruct (kw_given_in h2 kwargs "spider_key") as [key|]; [|done].
    split_and!; [done..|apply dict_set_keys_prefix|].
    intros k Hk. simpl. rewrite dict_get_set. case_decide; [|done].
    subst k. by specialize (Hk eq_refl). }
  destruct H3 as ((Hn3 & Hm3 & Hb3 & Hmro3) & Hpre3 & Hget3).
  destruct (cls_fields_setattrs cls3 items) as (Hn4 & Hm4 & Hb4).
  split_and!.
  - congruence.
  - congruence.
  - congruence.
  - rewrite cls_mro_setattrs. congruence.
  - rewrite cls_dict_setattrs. etrans; [exact Hpre|]. etrans; [exact Hpre3|].
    apply dict_update_keys_prefix.
  - intros k Hname Hia Hnot. rewrite cls_dict_setattrs.
    rewrite dict_get_update_notin.
    + rewrite Hget3, Hget by done. done.
    + destruct Hitems as [[_ ->]|(le & Hle & ->)]; [apply not_elem_of_nil|].
      intros Hin. apply Hnot. by exists le.
Qed.

Lemma hook_keeps_namespace_witness :
  cls_name acme_class = "AcmeSpider"
  ∧ cls_mro acme_class = [generator_base]
  ∧ ["name"] `prefix_of` (cls_dict acme_class).*1.
Proof.
  pose proof acme_declaration_ok as Hdecl.
  unfold acme_declaration, declare_class in Hdecl.
  destruct (hook_keeps_namespace _ _ _ _ _ acme_plain Hdecl)
    as (Hn & _ & _ & Hmro & Hpre & _).
  split_and!; [exact Hn|exact Hmro|exact Hpre].
Defined.

(** ** When the hook returns and when it raises *)





(** ** Keywords that count for nothing *)

Lemma finish_delete_ne (k : string) cls kwargs (h : heap) :
  k ≠ "spider_key" → k ≠ "extracted_attributes" →
  finish cls (dict_delete k kwargs) h = finish cls kwargs h.
Proof.
  intros Hkey Hext. unfold finish.
  by rewrite !kw_given_in_delete_ne by done.
Qed.

(** A keyword other than the six of the hook is accepted and ignored. *)
Theorem unknown_keyword_ignored cls kwargs (h : heap) (k : string) :
  k ∉ ["brand_wikidata"; "brand"; "operator_wikidata"; "operator";
       "spider_key"; "extracted_attributes"] →
  __init_subclass__ cls (dict_delete k kwargs) h = __init_subclass__ cls kwargs h.
Proof.
  intros Hk.
  assert (Hne : ∀ k', k' ∈ ["brand_wikidata"; "brand"; "operator_wikidata";
                            "operator"; "spider_key"; "extracted_attributes"] →
                      k ≠ k').
  { intros k' Hk' ->. done. }
  rewrite !init_subclass_unfold.
  rewrite !fold_wikidata_delete_ne
    by (apply Hne; apply (bool_decide_unpack _); by vm_compute).
  destruct (fold_wikidata "brand_wikidata" _ _ _ _) as [[cls1|e] h1]; [|done].
  rewrite !fold_wikidata_delete_ne
    by (apply Hne; apply (bool_decide_unpack _); by vm_compute).
  destruct (fold_wikidata "operator_wikidata" _ _ _ _) as [[cls2|e] h2]; [|done].
  apply finish_delete_ne; apply Hne; apply (bool_decide_unpack _); by vm_compute.
Qed.

Lemma unknown_keyword_ignored_witness :
  __init_subclass__ named_class [("spider_key", VStr "acme_2")] ∅
  = __init_subclass__ named_class
      [("metaclass_option", VInt 1); ("spider_key", VStr "acme_2")] ∅.
Proof.
  change [("spider_key", VStr "acme_2")]
    with (dict_delete "metaclass_option"
            [("metaclass_option", VInt 1); ("spider_key", VStr "acme_2")]).
  apply unknown_keyword_ignored. apply (bool_decide_unpack _). by vm_compute.
Defined.

(** [brand] counts only beside [brand_wikidata], and [operator] only
    beside [operator_wikidata]: when the wikidata keyword is missing, or
    bound to a value that is falsy and stays so (if it is an empty dict,
    it is a live dict other than the [item_attributes] of the class,
    which the hook may fill), the hook does what it does without the
    label, however truthy the label is. *)
Theorem label_without_wikidata_ignored
    cls kwargs (h : heap) (wikidata label : string) :
  (wikidata, label) ∈ [("brand_wikidata", "brand"); ("operator_wikidata", "operator")] →
  (dict_get wikidata kwargs = None
   ∨ ∃ v, dict_get wikidata kwargs = Some v ∧ stable_falsy cls h v) →
  __init_subclass__ cls (dict_delete label kwargs) h = __init_subclass__ cls kwargs h.
Proof.
  intros Hpair Hw.
  assert (Hstay : ∀ cls0 h0,
            (∀ v, dict_get wikidata kwargs = Some v → stable_falsy cls0 h0 v) →
            kw_given_in h0 kwargs wikidata = None).
  { intros cls0 h0 Hsf. unfold kw_given_in.
    destruct (dict_get wikidata kwargs) as [v|]; [|done].
    by rewrite (proj1 (Hsf v eq_refl)). }
  assert (Hsf : ∀ v, dict_get wikidata kwargs = Some v → stable_falsy cls h v).
  { intros v Hv. destruct Hw as [Hnone|(v' & Hv' & Hsf)]; congruence. }
  rewrite !init_subclass_unfold.
  apply elem_of_cons in Hpair as [[= -> ->]|Hpair].
  - rewrite (fold_wikidata_not_given "brand_wikidata" "brand" cls kwargs h)
      by by eapply Hstay.
    rewrite (fold_wikidata_not_given "brand_wikidata" "brand" cls (dict_delete _ _) h)
      by (rewrite kw_given_in_delete_ne by done; by eapply Hstay).
    rewrite fold_wikidata_delete_ne by done.
    destruct (fold_wikidata "operator_wikidata" _ _ _ _) as [[cls2|e] h2]; [|done].
    by apply finish_delete_ne.
  - apply list_elem_of_singleton in Hpair as [= -> ->].
    rewrite fold_wikidata_delete_ne by done.
    destruct (fold_wikidata "brand_wikidata" _ _ _ _) as [[cls1|e] h1] eqn:E1; [|done].
    assert (Hsf1 : ∀ v, dict_get "operator_wikidata" kwargs = Some v →
                        stable_falsy cls1 h1 v).
    { intros v Hv. eapply fold_wikidata_stable_falsy; [exact E1|by apply Hsf]. }
    rewrite (fold_wikidata_not_given "operator_wikidata" "operator" cls1 kwargs h1)
      by by eapply Hstay.
    rewrite (fold_wikidata_not_given "operator_wikidata" "operator" cls1
               (dict_delete _ _) h1)
      by (rewrite kw_given_in_delete_ne by done; by eapply Hstay).
    by apply finish_delete_ne.
Qed.

Lemma label_without_wikidata_ignored_witness :
  __init_subclass__ named_class [("spider_key", VStr "acme_2")] ∅
  = __init_subclass__ named_class
      [("brand", VStr "Acme"); ("spider_key", VStr "acme_2")] ∅
  ∧ __init_subclass__ named_class [("operator_wikidata", VStr EmptyString)] ∅
    = __init_subclass__ named_class
        [("operator_wikidata", VStr EmptyString); ("operator", VStr "Acme")] ∅.
Proof.
  split.
  - change [("spider_key", VStr "acme_2")]
      with (dict_delete "brand" [("brand", VStr "Acme"); ("spider_key", VStr "acme_2")]).
    apply (label_without_wikidata_ignored _ _ _ "brand_wikidata").
    + apply (bool_decide_unpack _). by vm_compute.
    + by left.
  - change [("operator_wikidata", VStr EmptyString)]
      with (dict_delete "operator"
              [("operator_wikidata", VStr EmptyString); ("operator", VStr "Acme")]).
    apply (label_without_wikidata_ignored _ _ _ "operator_wikidata").
    + apply (bool_decide_unpack _). by vm_compute.
    + right. exists (VStr EmptyString). split; [reflexivity|]. by split.
Defined.

(** The proviso counts: with [operator_wikidata] bound to the empty dict
    that is the [item_attributes] of the class, the [brand_wikidata]
    block fills that dict, the keyword has become truthy when its block
    comes, and [operator] is written. *)
Example aliased_wikidata_counts :
  dict_get "operator"
    (deref (__init_subclass__ alias_class
              [("brand_wikidata", VStr "Q1");
               ("operator_wikidata", VDict 1%positive);
               ("operator", VStr "Acme Holding")] falsy_heap).2 1%positive)
  = Some (VStr "Acme Holding").
Proof. by vm_compute. Qed.

(** * The hook and the synthesizer together *)




(** * Witnesses for the further properties of the synthesizer *)

Lemma rendering_ignores_insertion_order_witness :
  generate_spider_code
    (Class "acme_example" "locations.spiders.acme_example"
           [scrapy_spider] [scrapy_spider] (reverse (cls_dict acme_example)))
    acme_example_heap
  = generate_spider_code acme_example acme_example_heap.
Proof.
  apply (rendering_ignores_insertion_order acme_example).
  - apply (bool_decide_unpack _). by vm_compute.
  - apply reverse_Permutation.
Defined.

Lemma any_sort_order_keeps_attributes_witness :
  ∃ listed others : dict,
    spider_attributes_sorted acme_example ["zone"; "missing"; "name"]
    = listed ++ others
    ∧ listed.*1 = ["zone"; "name"]
    ∧ StronglySorted key_lt others.*1.
Proof.
  destruct (proj2 (any_sort_order_keeps_attributes acme_example
                     ["zone"; "missing"; "name"]))
    as (listed & others & Heq & Hlisted & _ & Hsorted).
  - apply (bool_decide_unpack _). by vm_compute.
  - exists listed, others. split_and!; [exact Heq| |exact Hsorted].
    rewrite Hlisted. by vm_compute.
Defined.

Lemma rendered_attributes_own_witness :
  (("download_delay", VNone)
     ∉ spider_attributes_sorted acme_example default_sort_order)
  ∧ "headers" ∉ (spider_attributes_sorted acme_example default_sort_order).*1.
Proof.
  destruct (rendered_attributes_own acme_example default_sort_order ∅)
    as (_ & _ & Hown & Hmissing).
  split.
  - intros Hin. by destruct (Hown _ _ Hin) as (_ & Hnone & _).
  - by apply Hmissing.
Defined.

Lemma rendering_reads_own_dicts_witness :
  (generate_spider_code acme_example
     (<[2%positive := [("brand", VStr "Zenith")]]> acme_example_heap)).1
  = (generate_spider_code acme_example acme_example_heap).1.
Proof.
  apply rendering_reads_own_dicts. intros k l Hin.
  apply list_elem_of_In in Hin. unfold acme_example in Hin. simpl in Hin.
  repeat (destruct Hin as [Heq|Hin]; [try discriminate Heq|]); try done.
  injection Heq as _ <-. rewrite deref_insert. by rewrite decide_False.
Defined.

(** * Strings cut by position and by separator *)

Section pystr.
Import PyStr.
Context {A : Type} `{EqDecision A}.

Lemma slice_wrapped (a s b : list A) :
  slice (length a) (length b) (a ++ s ++ b) = s.
Proof.
  unfold slice.
  replace (length (a ++ s ++ b) - length b)%nat with (length (a ++ s))
    by (rewrite !length_app; lia).
  rewrite (assoc_L (++)), take_app_length. apply drop_app_length.
Qed.

Lemma slice_short (lo m : nat) (s : list A) :
  (length s ≤ lo + m)%nat → slice lo m s = [].
Proof.
  intros Hlen. unfold slice. apply drop_ge. rewrite length_take. lia.
Qed.

Lemma prefix_single (c x : A) (s : list A) : [c] `prefix_of` x :: s ↔ x = c.
Proof.
  split.
  - intros [k Hk]. by simplify_eq/=.
  - intros ->. by exists s.
Qed.

Lemma split_single_cons (c x : A) (s : list A) :
  split [c] (x :: s)
  = if decide (x = c) then [] :: split [c] s
    else match split [c] s with
         | piece :: pieces => (x :: piece) :: pieces
         | [] => [[x]]
         end.
Proof.
  unfold split. simpl. destruct (decide (x = c)) as [->|Hne].
  - rewrite decide_True; [done|]. by apply prefix_single.
  - rewrite decide_False; [done|]. by rewrite prefix_single.
Qed.

Lemma split_single_nonempty (c : A) (s : list A) : split [c] s ≠ [].
Proof.
  destruct s as [|x s]; [done|]. rewrite split_single_cons.
  case_decide; [done|]. by destruct (split [c] s).
Qed.

(** The pieces of a split at a one-character separator do not hold the
    separator, and joined by it they make the string again. *)
Lemma split_single_pieces (c : A) (s : list A) :
  Forall (λ piece, c ∉ piece) (split [c] s) ∧ join [c] (split [c] s) = s.
Proof.
  induction s as [|x s [IHf IHj]].
  - split; [|done]. repeat constructor. apply not_elem_of_nil.
  - rewrite split_single_cons. pose proof (split_single_nonempty c s) as Hne.
    destruct (decide (x = c)) as [->|Hx].
    + split.
      * constructor; [apply not_elem_of_nil|done].
      * destruct (split [c] s) as [|p ps]; [done|]. simpl in *. by rewrite IHj.
    + destruct (split [c] s) as [|p ps]; [done|].
      apply Forall_cons in IHf as [Hp Hps]. split.
      * constructor; [|done]. by intros [?|?]%elem_of_cons.
      * destruct ps as [|q ps]; simpl in *; by rewrite <-IHj.
Qed.

Lemma split_single_none (c : A) (s : list A) : c ∉ s → split [c] s = [s].
Proof.
  induction s as [|x s IH]; [done|].
  intros [Hx Hs]%not_elem_of_cons. rewrite split_single_cons.
  rewrite decide_False by done. by rewrite IH.
Qed.

Lemma split_single_app (c : A) (a b : list A) :
  c ∉ a → split [c] (a ++ c :: b) = a :: split [c] b.
Proof.
  induction a as [|x a IH]; simpl.
  - intros _. rewrite split_single_cons. by rewrite decide_True.
  - intros [Hx Ha]%not_elem_of_cons. rewrite split_single_cons.
    rewrite decide_False by done. by rewrite IH.
Qed.

(** A one-character split gives two pieces exactly for the strings with
    one separator. *)
Lemma split_single_two (c : A) (s a b : list A) :
  split [c] s = [a; b] ↔ s = a ++ c :: b ∧ (c ∉ a) ∧ (c ∉ b).
Proof.
  split.
  - intros Hsplit. destruct (split_single_pieces c s) as [Hf Hj].
    rewrite Hsplit in Hf, Hj. simpl in Hj.
    apply Forall_cons in Hf as [Ha Hb]. apply Forall_cons in Hb as [Hb _].
    done.
  - intros (-> & Ha & Hb). rewrite split_single_app by done.
    by rewrite split_single_none.
Qed.

Lemma rsplit1_none (c : A) (s : list A) : c ∉ s → rsplit1 c s = [s].
Proof.
  induction s as [|x s IH]; [done|].
  intros [Hx Hs]%not_elem_of_cons. simpl. rewrite IH by done.
  by rewrite decide_False.
Qed.

Lemma rsplit1_last (c : A) (a b : list A) :
  c ∉ b → rsplit1 c (a ++ c :: b) = [a; b].
Proof.
  intros Hb. induction a as [|x a IH]; simpl.
  - rewrite rsplit1_none by done. by rewrite decide_True.
  - by rewrite IH.
Qed.

Lemma rsplit1_cases (c : A) (s : list A) :
  ((c ∉ s) ∧ rsplit1 c s = [s])
  ∨ ∃ a b, s = a ++ c :: b ∧ (c ∉ b) ∧ rsplit1 c s = [a; b].
Proof.
  induction s as [|x s IH].
  - left. split; [apply not_elem_of_nil|done].
  - destruct IH as [[Hs Hr]|(a & b & -> & Hb & Hr)].
    + destruct (decide (x = c)) as [->|Hx].
      * right. exists [], s. split_and!; [done..|]. by apply (rsplit1_last c []).
      * left. split; [by intros [?|?]%elem_of_cons|]. simpl. rewrite Hr.
        by rewrite decide_False.
    + right. exists (x :: a), b. split_and!; [done..|].
      by apply (rsplit1_last c (x :: a)).
Qed.

(** [rsplit] with a limit of one gives two pieces exactly for the strings
    that hold the separator, cut at its last occurrence. *)
Lemma rsplit1_two (c : A) (s a b : list A) :
  rsplit1 c s = [a; b] ↔ s = a ++ c :: b ∧ (c ∉ b).
Proof.
  split.
  - intros Hr. destruct (rsplit1_cases c s) as [[_ Hr']|(a' & b' & -> & Hb & Hr')];
      rewrite Hr' in Hr; by simplify_eq.
  - intros [-> Hb]. by apply rsplit1_last.
Qed.

Lemma elem_of_replace_go (old new : list A) (skip : nat) (s : list A) (x : A) :
  x ∈ replace_go old new skip s → x ∈ s ∨ x ∈ new.
Proof.
  revert skip. induction s as [|c s IH]; intros skip; simpl.
  - by intros ?%elem_of_nil.
  - destruct skip as [|n].
    + case_decide.
      * intros [Hnew|Hin]%elem_of_app; [by right|].
        destruct (IH _ Hin) as [?|?]; [left; by right|by right].
      * intros [->|Hin]%elem_of_cons; [left; left|].
        destruct (IH _ Hin) as [?|?]; [left; by right|by right].
    + intros Hin. destruct (IH _ Hin) as [?|?]; [left; by right|by right].
Qed.

Lemma replace_single_removes (c : A) (s : list A) : c ∉ replace [c] [] s.
Proof.
  unfold replace. induction s as [|x s IH]; simpl; [apply not_elem_of_nil|].
  destruct (decide (x = c)) as [->|Hx].
  - rewrite decide_True by by apply prefix_single. done.
  - rewrite decide_False by by rewrite prefix_single.
    by intros [?|?]%elem_of_cons.
Qed.

Lemma split_go_nonempty (sep : list A) (skip : nat) (s : list A) :
  split_go sep skip s ≠ [].
Proof.
  revert skip. induction s as [|c s IH]; intros skip; simpl; [done|].
  destruct skip as [|n]; [|apply IH].
  case_decide; [done|]. specialize (IH 0%nat).
  by destruct (split_go sep 0 s).
Qed.

(** A one-character split gives one piece more than the string has
    separators. *)
Lemma split_single_length (c : A) (s : list A) :
  length (split [c] s) = S (length (filter (.= c) s)).
Proof.
  induction s as [|x s IH]; [done|].
  rewrite split_single_cons. destruct (decide (x = c)) as [Hx|Hx].
  - rewrite filter_cons_True by done. simpl. by rewrite IH.
  - rewrite filter_cons_False by done.
    destruct (split [c] s); simpl in *; [done|]. done.
Qed.

Lemma replace_single_filter (c : A) (s : list A) :
  replace [c] [] s = filter (.≠ c) s.
Proof.
  unfold replace. induction s as [|x s IH]; simpl; [done|].
  destruct (decide (x = c)) as [->|Hx].
  - rewrite decide_True by by apply prefix_single.
    by rewrite filter_cons_False by (by intros []).
  - rewrite decide_False by by rewrite prefix_single.
    rewrite filter_cons_True by done. by rewrite IH.
Qed.

Lemma join_cons_cons (sep piece piece' : list A) (pieces : list (list A)) :
  join sep (piece :: piece' :: pieces)
  = piece ++ sep ++ join sep (piece' :: pieces).
Proof. done. Qed.

Lemma filter_join (P : A → Prop) `{!∀ x, Decision (P x)}
    (sep : list A) (pieces : list (list A)) :
  Forall P sep →
  filter P (join sep pieces) = join sep (filter P <$> pieces).
Proof.
  intros Hsep. induction pieces as [|piece [|piece' pieces] IH]; [done..|].
  rewrite !fmap_cons, !join_cons_cons, !filter_app. rewrite <-fmap_cons, <-IH.
  f_equal. f_equal. clear IH.
  induction Hsep as [|x sep Hx Hsep IH]; [done|].
  rewrite filter_cons_True by done. by f_equal.
Qed.

(** Passing an occurrence that was found. *)
Lemma replace_go_skip (old new passed s : list A) :
  replace_go old new (length passed) (passed ++ s) = replace_go old new 0 s.
Proof. induction passed as [|x passed IH]; [done|]. exact IH. Qed.

Lemma replace_occurrence (c : A) (old' new s : list A) :
  replace (c :: old') new ((c :: old') ++ s) = new ++ replace (c :: old') new s.
Proof.
  unfold replace. simpl. rewrite decide_True by (by exists s).
  f_equal. rewrite Nat.sub_0_r. apply replace_go_skip.
Qed.

Lemma replace_other (c : A) (old' new piece s : list A) :
  c ∉ piece →
  replace (c :: old') new (piece ++ s) = piece ++ replace (c :: old') new s.
Proof.
  unfold replace. induction piece as [|x piece IH]; [done|].
  intros [Hx Hpiece]%not_elem_of_cons. simpl.
  rewrite decide_False.
  - f_equal. by apply IH.
  - intros [k Hk]. by simplify_eq/=.
Qed.

(** Replacing the separator of a joined string by another one, when the
    first character of the separator is in no piece. *)
Lemma replace_join (c : A) (old' new : list A) (pieces : list (list A)) :
  Forall (λ piece, c ∉ piece) pieces →
  replace (c :: old') new (join (c :: old') pieces) = join new pieces.
Proof.
  induction pieces as [|piece [|piece' pieces] IH]; intros Hpieces.
  - done.
  - apply Forall_cons in Hpieces as [Hpiece _]. simpl.
    rewrite <-(right_id_L [] (++) piece) at 1.
    rewrite replace_other by done. unfold replace. simpl.
    by rewrite (right_id_L [] (++)).
  - apply Forall_cons in Hpieces as [Hpiece Hpieces].
    rewrite !join_cons_cons, replace_other by done.
    by rewrite replace_occurrence, IH.
Qed.

End pystr.

(** * Properties of [parse2] of the Poczta Polska spider *)

Section parse2_properties.
Import PyStr PocztaPolska.

Lemma lit_space : lit " " = [32%N].
Proof. reflexivity. Qed.

Lemma unpack2_returns (pieces : list text) (a b : text) :
  unpack2 pieces = Returns (a, b) ↔ pieces = [a; b].
Proof.
  destruct pieces as [|x [|y [|z pieces]]]; simpl; split; intros Heq;
    by simplify_eq.
Qed.

Lemma unpack2_raises (pieces : list text) :
  length pieces ≠ 2%nat → unpack2 pieces = Raises ValueError.
Proof. by destruct pieces as [|x [|y [|z pieces]]]. Qed.

Lemma item_get_set (k k' : string) (v : field_value) (it : item) :
  item_get k (item_set k' v it)
  = if decide (k = k') then Some v else item_get k it.
Proof.
  induction it as [|[k1 v1] it IH]; simpl; [done|].
  destruct (decide (k' = k1)) as [->|Hk']; simpl.
  - by destruct (decide (k = k1)).
  - rewrite IH. destruct (decide (k = k1)) as [->|Hk1]; [|done].
    by rewrite decide_False.
Qed.

(** The value that [parse2] stores under ["phone"]. *)
Lemma phone_no_space (p : text) :
  32%N ∉ replace (lit "<br>") (lit ";") (replace (lit " ") [] (slice 3 4 p)).
Proof.
  intros [Hin|Hin]%elem_of_replace_go.
  - revert Hin. rewrite lit_space. apply replace_single_removes.
  - change (lit ";") with [59%N] in Hin.
    apply elem_of_cons in Hin as [Heq|Hin]; [discriminate Heq|].
    by apply elem_of_nil in Hin.
Qed.

(** What [parse2] returns for an address of two good lines. *)
Lemma parse2_run (p a : text) (it : item) (street hn pc city : text)
    (rest : list text) :
  split (lit "<br>") (slice 3 4 a)
  = (street ++ 32%N :: hn) :: (pc ++ 32%N :: city) :: rest →
  32%N ∉ hn → 32%N ∉ pc → 32%N ∉ city →
  parse2 (Some p) (Some a) it
  = Returns
      (item_set "city" (Text city)
         (item_set "postcode" (Text pc)
            (item_set "housenumber" (Text hn)
               (item_set "street" (Text street)
                  (item_set "phone"
                     (Text (replace (lit "<br>") (lit ";")
                              (replace (lit " ") [] (slice 3 4 p)))) it))))).
Proof.
  intros Hsplit Hhn Hpc Hcity. unfold parse2. rewrite Hsplit.
  cbn [lookup list_lookup default from_option id].
  rewrite rsplit1_last by done. cbn [unpack2].
  rewrite lit_space. rewrite (proj2 (split_single_two 32%N _ pc city)) by done.
  done.
Qed.

(** The four ways [parse2] can go once both paragraphs are there. *)
Lemma parse2_cases (p a : text) (it : item) :
  ∃ line0 rest,
    split (lit "<br>") (slice 3 4 a) = line0 :: rest
    ∧ (((32%N ∉ line0) ∧ parse2 (Some p) (Some a) it = Raises ValueError)
       ∨ ∃ street hn,
           line0 = street ++ 32%N :: hn ∧ (32%N ∉ hn)
           ∧ ((rest = [] ∧ parse2 (Some p) (Some a) it = Raises IndexError)
              ∨ ∃ line1 rest',
                  rest = line1 :: rest'
                  ∧ ((length (filter (.= 32%N) line1) ≠ 1%nat
                      ∧ parse2 (Some p) (Some a) it = Raises ValueError)
                     ∨ ∃ pc city,
                         line1 = pc ++ 32%N :: city
                         ∧ (32%N ∉ pc) ∧ (32%N ∉ city)))).
Proof.
  destruct (split (lit "<br>") (slice 3 4 a)) as [|line0 rest] eqn:Hsplit.
  { by apply split_go_nonempty in Hsplit. }
  exists line0, rest. split; [done|].
  destruct (rsplit1_cases 32%N line0) as [[Hno Hr]|(street & hn & -> & Hhn & Hr)].
  { left. split; [done|]. unfold parse2. rewrite Hsplit.
    cbn [lookup list_lookup default from_option id]. by rewrite Hr. }
  right. exists street, hn. split_and!; [done..|].
  destruct rest as [|line1 rest'].
  { left. split; [done|]. unfold parse2. rewrite Hsplit.
    cbn [lookup list_lookup default from_option id]. by rewrite Hr. }
  right. exists line1, rest'. split; [done|].
  destruct (decide (length (filter (.= 32%N) line1) = 1%nat)) as [Hone|Hmany].
  - right. pose proof (split_single_length 32%N line1) as Hlen.
    rewrite Hone in Hlen.
    destruct (split [32%N] line1) as [|pc [|city [|? ?]]] eqn:Hline;
      try discriminate Hlen.
    apply split_single_two in Hline as (-> & Hpc & Hcity).
    by exists pc, city.
  - left. split; [done|]. unfold parse2. rewrite Hsplit.
    cbn [lookup list_lookup default from_option id]. rewrite Hr. cbn [unpack2].
    rewrite lit_space, unpack2_raises; [done|].
    rewrite split_single_length. lia.
Qed.

(** [parse2] returns an item exactly when both paragraphs are there
    and the address, cut at its [<br>], has a first line with a space in it
    and a second line with exactly one space; lines after the second are
    not looked at. *)
Theorem parse2_returns_iff (phones address : option text) (it : item) :
  (∃ it', parse2 phones address it = Returns it')
  ↔ ∃ p a street hn pc city rest,
      phones = Some p ∧ address = Some a
      ∧ split (lit "<br>") (slice 3 4 a)
        = (street ++ 32%N :: hn) :: (pc ++ 32%N :: city) :: rest
      ∧ (32%N ∉ hn) ∧ (32%N ∉ pc) ∧ (32%N ∉ city).
Proof.
  split.
  - intros [it' Hret].
    destruct phones as [p|]; [|discriminate Hret].
    destruct address as [a|]; [|discriminate Hret].
    destruct (parse2_cases p a it) as (line0 & rest & Hsplit & Hcases).
    destruct Hcases as [[_ Hraise]|(street & hn & -> & Hhn & Hcases)];
      [congruence|].
    destruct Hcases as [[_ Hraise]|(line1 & rest' & -> & Hcases)];
      [congruence|].
    destruct Hcases as [[_ Hraise]|(pc & city & -> & Hpc & Hcity)];
      [congruence|].
    by exists p, a, street, hn, pc, city, rest'.
  - intros (p & a & street & hn & pc & city & rest
            & -> & -> & Hsplit & Hhn & Hpc & Hcity).
    eexists. by apply (parse2_run p a it street hn pc city rest).
Qed.

(** The exception of [parse2] tells what was wrong: TypeError for a
    missing paragraph, IndexError for an address of one line (with a space
    in it), ValueError for a first line without a space or a second line
    whose number of spaces is not one. *)
Theorem parse2_raises_iff (phones address : option text) (it : item) :
  (parse2 phones address it = Raises TypeError
   ↔ phones = None ∨ address = None)
  ∧ (parse2 phones address it = Raises IndexError
     ↔ ∃ p a line0,
         phones = Some p ∧ address = Some a
         ∧ split (lit "<br>") (slice 3 4 a) = [line0] ∧ 32%N ∈ line0)
  ∧ (parse2 phones address it = Raises ValueError
     ↔ ∃ p a line0 rest,
         phones = Some p ∧ address = Some a
         ∧ split (lit "<br>") (slice 3 4 a) = line0 :: rest
         ∧ ((32%N ∉ line0)
            ∨ ∃ line1 rest',
                rest = line1 :: rest'
                ∧ length (filter (.= 32%N) line1) ≠ 1%nat)).
Proof.
  destruct phones as [p|]; [destruct address as [a|]|].
  2:{ split_and!; split; try done.
      - by right.
      - by intros (? & ? & ? & _ & ? & _).
      - by intros (? & ? & ? & ? & _ & ? & _). }
  2:{ split_and!; split; try done.
      - by left.
      - by intros (? & ? & ? & ? & _).
      - by intros (? & ? & ? & ? & ? & _). }
  destruct (parse2_cases p a it) as (line0 & rest & Hsplit & Hcases).
  assert (∀ x y : text, 32%N ∈ x ++ 32%N :: y) as Hspace.
  { intros x y. apply elem_of_app. right. left. }
  assert (∀ pc city : text, 32%N ∉ pc → 32%N ∉ city →
            length (filter (.= 32%N) (pc ++ 32%N :: city)) = 1%nat) as Hone.
  { intros pc city Hpc Hcity.
    pose proof (split_single_length 32%N (pc ++ 32%N :: city)) as Hlen.
    rewrite (proj2 (split_single_two 32%N _ pc city)) in Hlen by done.
    simpl in Hlen. lia. }
  destruct Hcases as [[Hno Hraise]|(street & hn & -> & Hhn & Hcases)].
  { rewrite Hraise. split_and!; split; try discriminate; try (intros _; reflexivity).
    - by intros [?|?].
    - intros (p' & a' & line0' & _ & Ha & Hsplit' & Hin). simplify_eq.
      rewrite Hsplit in Hsplit'. by simplify_eq.
    - intros _. exists p, a, line0, rest. split_and!; [done..|by left]. }
  destruct Hcases as [[-> Hraise]|(line1 & rest' & -> & Hcases)].
  { rewrite Hraise. split_and!; split; try discriminate; try (intros _; reflexivity).
    - by intros [?|?].
    - intros _. by exists p, a, (street ++ 32%N :: hn).
    - intros (p' & a' & line0' & rest' & _ & Ha & Hsplit' & Hbad).
      simplify_eq. rewrite Hsplit in Hsplit'. simplify_eq.
      destruct Hbad as [Hno|(? & ? & ? & _)]; [|done].
      by destruct Hno. }
  destruct Hcases as [[Hmany Hraise]|(pc & city & -> & Hpc & Hcity)].
  { rewrite Hraise. split_and!; split; try discriminate; try (intros _; reflexivity).
    - by intros [?|?].
    - intros (p' & a' & line0' & _ & Ha & Hsplit' & _). simplify_eq.
      rewrite Hsplit in Hsplit'. by simplify_eq.
    - intros _. exists p, a, (street ++ 32%N :: hn), (line1 :: rest').
      split_and!; [done..|]. right. by exists line1, rest'. }
  rewrite (parse2_run p a it street hn pc city rest') by done.
  split_and!; split; try discriminate; try (intros _; reflexivity).
  - by intros [?|?].
  - intros (p' & a' & line0' & _ & Ha & Hsplit' & _). simplify_eq.
    rewrite Hsplit in Hsplit'. by simplify_eq.
  - intros (p' & a' & line0' & rest & _ & Ha & Hsplit' & Hbad).
    simplify_eq. rewrite Hsplit in Hsplit'. simplify_eq.
    destruct Hbad as [Hno|(line1 & rest & Heq & Hmany)].
    + by destruct Hno.
    + simplify_eq. by destruct Hmany; apply Hone.
Qed.

(** The item that [parse2] returns: street and house number are the
    first address line cut at its last space, postcode and city the second
    line cut at its only space, the telephone numbers have no space left,
    and every other field of the item is as the request carried it. *)
Theorem parse2_fields (phones address : option text) (it it' : item) :
  parse2 phones address it = Returns it' →
  ∃ phone street hn pc city,
    item_get "phone" it' = Some (Text phone)
    ∧ item_get "street" it' = Some (Text street)
    ∧ item_get "housenumber" it' = Some (Text hn)
    ∧ item_get "postcode" it' = Some (Text pc)
    ∧ item_get "city" it' = Some (Text city)
    ∧ (32%N ∉ phone) ∧ (32%N ∉ hn) ∧ (32%N ∉ pc) ∧ (32%N ∉ city)
    ∧ (∃ a, address = Some a
            ∧ split (lit "<br>") (slice 3 4 a) !! 0%nat
              = Some (street ++ lit " " ++ hn)
            ∧ split (lit "<br>") (slice 3 4 a) !! 1%nat
              = Some (pc ++ lit " " ++ city))
    ∧ ∀ k, k ∉ ["phone"; "street"; "housenumber"; "postcode"; "city"] →
           item_get k it' = item_get k it.
Proof.
  intros Hret.
  destruct phones as [p|]; [|discriminate Hret].
  destruct address as [a|]; [|discriminate Hret].
  destruct (parse2_cases p a it) as (line0 & rest & Hsplit & Hcases).
  destruct Hcases as [[_ Hraise]|(street & hn & -> & Hhn & Hcases)];
    [congruence|].
  destruct Hcases as [[_ Hraise]|(line1 & rest' & -> & Hcases)];
    [congruence|].
  destruct Hcases as [[_ Hraise]|(pc & city & -> & Hpc & Hcity)];
    [congruence|].
  rewrite (parse2_run p a it street hn pc city rest') in Hret by done.
  injection Hret as <-.
  exists (replace (lit "<br>") (lit ";") (replace (lit " ") [] (slice 3 4 p))),
    street, hn, pc, city.
  split_and!; [by rewrite !item_get_set..|apply phone_no_space
               |done|done|done| |].
  - exists a. by rewrite Hsplit.
  - intros k Hk. rewrite !item_get_set.
    repeat (apply not_elem_of_cons in Hk as [? Hk]).
    by rewrite !decide_False by done.
Qed.

(** The paragraphs are cut by position: [parse2] drops the first
    three and the last four characters of each without looking at them, so
    any other tag of the same lengths gives the same result. *)
Theorem parse2_cuts_by_position
    (open1 close1 open2 close2 p a : text) (it : item) :
  length open1 = 3%nat → length close1 = 4%nat →
  length open2 = 3%nat → length close2 = 4%nat →
  parse2 (Some (open1 ++ p ++ close1)) (Some (open2 ++ a ++ close2)) it
  = parse2 (Some (lit "<p>" ++ p ++ lit "</p>"))
      (Some (lit "<p>" ++ a ++ lit "</p>")) it.
Proof.
  intros Ho1 Hc1 Ho2 Hc2. unfold parse2.
  pose proof (slice_wrapped open1 p close1) as H1.
  pose proof (slice_wrapped open2 a close2) as H2.
  rewrite Ho1, Hc1 in H1. rewrite Ho2, Hc2 in H2. rewrite H1, H2.
  pose proof (slice_wrapped (lit "<p>") p (lit "</p>")) as H3.
  pose proof (slice_wrapped (lit "<p>") a (lit "</p>")) as H4.
  change (length (lit "<p>")) with 3%nat in H3, H4.
  change (length (lit "</p>")) with 4%nat in H3, H4.
  by rewrite H3, H4.
Qed.

(** An address paragraph of fewer than eight characters is cut to the
    empty string, which has no space: [parse2] raises ValueError, whatever
    the telephone paragraph holds. *)
Theorem parse2_short_paragraph (p a : text) (it : item) :
  (length a ≤ 7)%nat →
  parse2 (Some p) (Some a) it = Raises ValueError.
Proof.
  intros Hlen. unfold parse2. rewrite (slice_short 3 4 a) by lia.
  reflexivity.
Qed.

Lemma parse2_phone (p : text) (address : option text) (it it' : item) :
  parse2 (Some p) address it = Returns it' →
  item_get "phone" it'
  = Some (Text (replace (lit "<br>") (lit ";")
                  (replace (lit " ") [] (slice 3 4 p)))).
Proof.
  intros Hret. destruct address as [a|]; [|discriminate Hret].
  destruct (parse2_cases p a it) as (line0 & rest & Hsplit & Hcases).
  destruct Hcases as [[_ Hraise]|(street & hn & -> & Hhn & Hcases)];
    [congruence|].
  destruct Hcases as [[_ Hraise]|(line1 & rest' & -> & Hcases)];
    [congruence|].
  destruct Hcases as [[_ Hraise]|(pc & city & -> & Hpc & Hcity)];
    [congruence|].
  rewrite (parse2_run p a it street hn pc city rest') in Hret by done.
  injection Hret as <-. by rewrite !item_get_set.
Qed.

(** Telephone numbers that the paragraph lists on lines of their own come
    out in ["phone"] separated by semicolons, each with its spaces
    removed. *)
Theorem parse2_phone_numbers
    (numbers : list text) (address : option text) (it it' : item) :
  Forall (λ number, 60%N ∉ number) numbers →
  parse2 (Some (lit "<p>" ++ join (lit "<br>") numbers ++ lit "</p>"))
    address it = Returns it' →
  item_get "phone" it'
  = Some (Text (join (lit ";") (filter (.≠ 32%N) <$> numbers))).
Proof.
  intros Hnumbers Hret. apply parse2_phone in Hret. rewrite Hret.
  do 2 f_equal.
  pose proof (slice_wrapped (lit "<p>") (join (lit "<br>") numbers)
                (lit "</p>")) as Hslice.
  change (length (lit "<p>")) with 3%nat in Hslice.
  change (length (lit "</p>")) with 4%nat in Hslice.
  rewrite Hslice, lit_space, replace_single_filter.
  rewrite (filter_join (.≠ 32%N)).
  - apply (replace_join 60%N (lit "br>") (lit ";")).
    apply Forall_fmap. eapply Forall_impl; [exact Hnumbers|].
    intros number Hno Hin. by apply list_elem_of_filter in Hin as [_ Hin].
  - apply (bool_decide_unpack _). by vm_compute.
Qed.

End parse2_properties.

(** * Witnesses for the properties of [parse2] *)

Lemma parse2_returns_iff_witness :
  (∃ it', PocztaPolska.parse2 (Some targowa_phones) (Some targowa_address)
            post_office_item = PocztaPolska.Returns it')
  ∧ ¬ ∃ it', PocztaPolska.parse2 (Some targowa_phones)
               (Some zielona_gora_address) post_office_item
             = PocztaPolska.Returns it'.
Proof.
  split.
  - apply parse2_returns_iff.
    exists targowa_phones, targowa_address, (PyStr.lit "ul. Targowa"),
      (PyStr.lit "73"), (PyStr.lit "03-408"), (PyStr.lit "Warszawa"), [].
    split_and!; try reflexivity;
      apply (bool_decide_unpack _); by vm_compute.
  - intros [it' Hret]. by vm_compute in Hret.
Defined.

Lemma parse2_raises_iff_witness :
  PocztaPolska.parse2 (Some targowa_phones) (Some zielona_gora_address)
    post_office_item
  = PocztaPolska.Raises PocztaPolska.ValueError.
Proof.
  apply (parse2_raises_iff (Some targowa_phones) (Some zielona_gora_address)).
  exists targowa_phones, zielona_gora_address, (PyStr.lit "ul. Targowa 73"),
    [PyStr.lit "65-900 Zielona Gora"].
  split_and!; try reflexivity. right.
  exists (PyStr.lit "65-900 Zielona Gora"), []. split; [done|].
  by vm_compute.
Defined.

Lemma parse2_fields_witness :
  ∃ it',
    PocztaPolska.parse2 (Some targowa_phones) (Some targowa_address)
      post_office_item = PocztaPolska.Returns it'
    ∧ PocztaPolska.item_get "phone" it'
      = Some (PocztaPolska.Text (PyStr.lit "221234567;227654321"))
    ∧ PocztaPolska.item_get "street" it'
      = Some (PocztaPolska.Text (PyStr.lit "ul. Targowa"))
    ∧ PocztaPolska.item_get "ref" it' = Some (PocztaPolska.Other 260517).
Proof.
  destruct (PocztaPolska.parse2 (Some targowa_phones) (Some targowa_address)
              post_office_item) as [it'|e] eqn:Hrun;
    [|by vm_compute in Hrun].
  exists it'. split; [done|].
  destruct (parse2_fields _ _ _ _ Hrun)
    as (phone & street & hn & pc & city & Hphone & Hstreet & _ & _ & _
        & _ & _ & _ & _ & _ & Hother).
  vm_compute in Hrun. injection Hrun as <-.
  split_and!; [by vm_compute..|].
  rewrite Hother; [done|]. apply (bool_decide_unpack _). by vm_compute.
Defined.

Lemma parse2_cuts_by_position_witness :
  PocztaPolska.parse2
    (Some (PyStr.lit "<b>" ++ PyStr.lit "22 123 45 67" ++ PyStr.lit "</b>"))
    (Some (PyStr.lit "<i>" ++ PyStr.lit "ul. Targowa 73<br>03-408 Warszawa"
             ++ PyStr.lit "    ")) post_office_item
  = PocztaPolska.parse2
      (Some (PyStr.lit "<p>" ++ PyStr.lit "22 123 45 67" ++ PyStr.lit "</p>"))
      (Some (PyStr.lit "<p>" ++ PyStr.lit "ul. Targowa 73<br>03-408 Warszawa"
               ++ PyStr.lit "</p>")) post_office_item.
Proof. by apply parse2_cuts_by_position. Defined.

Lemma parse2_short_paragraph_witness :
  PocztaPolska.parse2 (Some targowa_phones) (Some (PyStr.lit "<p></p>"))
    post_office_item
  = PocztaPolska.Raises PocztaPolska.ValueError.
Proof. apply parse2_short_paragraph. vm_compute. lia. Defined.

Lemma parse2_phone_numbers_witness :
  ∃ it',
    PocztaPolska.parse2 (Some targowa_phones) (Some targowa_address)
      post_office_item = PocztaPolska.Returns it'
    ∧ PocztaPolska.item_get "phone" it'
      = Some (PocztaPolska.Text (PyStr.lit "221234567;227654321")).
Proof.
  destruct (PocztaPolska.parse2 (Some targowa_phones) (Some targowa_address)
              post_office_item) as [it'|e] eqn:Hrun;
    [|by vm_compute in Hrun].
  exists it'. split; [done|].
  apply (parse2_phone_numbers
           [PyStr.lit "22 123 45 67"; PyStr.lit "22 765 43 21"]
           (Some targowa_address) post_office_item it');
    [|exact Hrun].
  apply (bool_decide_unpack _). by vm_compute.
Defined.

(** * Properties of the script that rebuilds the run history *)

Section restore_history_properties.
Import PyStr RestoreHistory.
Context {datetime : Type}.
Variable head_object : text → text → head_answer.
Variable strptime : text → option datetime.
Variable strftime : datetime → text.

Local Abbreviation process := (process head_object strptime strftime).
Local Abbreviation scan := (scan head_object strptime strftime).
Local Abbreviation main := (main head_object strptime strftime).
Local Abbreviation run_ok := (run_ok head_object strptime).
Local Abbreviation entry_of := (entry_of head_object strptime strftime).

Lemma run_ids_cons (run_id_prefix : text) (listing : list (option text)) :
  run_ids (Some run_id_prefix :: listing)
  = if decide (slice 5 1 run_id_prefix = lit "latest")
    then run_ids listing
    else slice 5 1 run_id_prefix :: run_ids listing.
Proof.
  unfold run_ids.
  change (omap id (Some run_id_prefix :: listing))
    with (run_id_prefix :: omap id listing).
  rewrite fmap_cons. case_decide as Hid.
  - by rewrite filter_cons_False by (by intros []).
  - by rewrite filter_cons_True by done.
Qed.

Lemma process_skip (st : state) (run_id_prefix : text) :
  slice 5 1 run_id_prefix = lit "latest" →
  process st (Some run_id_prefix) = Returns st.
Proof. intros Hid. unfold process. by rewrite decide_True. Qed.

Lemma process_run (st : state) (run_id_prefix : text) :
  slice 5 1 run_id_prefix ≠ lit "latest" →
  run_ok (slice 5 1 run_id_prefix) →
  ∃ d, process st (Some run_id_prefix) = Returns (Some d, st.2 ++ [d])
       ∧ entry_of (slice 5 1 run_id_prefix) d.
Proof.
  intros Hid (Hstats & Hinsights & [t Ht]).
  unfold process, object_exists, entry_of. rewrite decide_False by done.
  rewrite Ht.
  destruct (head_object bucket_name
              (lit "runs/" ++ slice 5 1 run_id_prefix
                 ++ lit "/stats/_results.json")); [| |done];
    destruct (head_object bucket_name
                (lit "runs/" ++ slice 5 1 run_id_prefix
                   ++ lit "/stats/_insights.json")); [| |done| | |done];
    eexists; (split; [reflexivity|]);
    (split; [apply (bool_decide_unpack _); by vm_compute|]);
    by split_and!.
Qed.

Lemma process_stop (st : state) (run_id_prefix : text) :
  slice 5 1 run_id_prefix ≠ lit "latest" →
  ¬ run_ok (slice 5 1 run_id_prefix) →
  ∃ e, process st (Some run_id_prefix) = Raises e.
Proof.
  intros Hid Hbad. unfold process, object_exists.
  rewrite decide_False by done.
  destruct (head_object bucket_name
              (lit "runs/" ++ slice 5 1 run_id_prefix
                 ++ lit "/stats/_results.json")) eqn:Hstats;
    [| |by eexists];
    (destruct (head_object bucket_name
                 (lit "runs/" ++ slice 5 1 run_id_prefix
                    ++ lit "/stats/_insights.json")) eqn:Hinsights;
     [| |by eexists]);
    (destruct (strptime (slice 5 1 run_id_prefix)) as [t|] eqn:Ht;
     [|by eexists]);
    destruct Hbad; unfold RestoreHistory.run_ok;
    rewrite Hstats, Hinsights, Ht; by split_and!.
Qed.

Lemma run_ok_cases (run_id : text) : run_ok run_id ∨ ¬ run_ok run_id.
Proof.
  unfold RestoreHistory.run_ok.
  destruct (head_object bucket_name
              (lit "runs/" ++ run_id ++ lit "/stats/_results.json"));
    destruct (head_object bucket_name
                (lit "runs/" ++ run_id ++ lit "/stats/_insights.json"));
    destruct (strptime run_id) as [t|];
    first [left; by split_and!
          |right; intros (Hstats & Hinsights & Ht); first
             [by destruct Hstats|by destruct Hinsights
             |by apply is_Some_None in Ht]].
Qed.

(** What the loop has made when it returns. *)
Lemma scan_returns (listing : list (option text)) (st st' : state) :
  scan st listing = Returns st' →
  (None ∉ listing)
  ∧ Forall run_ok (run_ids listing)
  ∧ ∃ new, Forall2 entry_of (run_ids listing) new
           ∧ st' = (from_option Some st.1 (last new), st.2 ++ new).
Proof.
  revert st. induction listing as [|[p|] listing IH]; intros st Hscan.
  - simpl in Hscan. injection Hscan as <-.
    split; [apply not_elem_of_nil|]. split; [constructor|].
    exists []. split; [constructor|]. destruct st. simpl.
    by rewrite (right_id_L [] (++)).
  - cbn [RestoreHistory.scan] in Hscan. rewrite run_ids_cons.
    destruct (decide (slice 5 1 p = lit "latest")) as [Hid|Hid].
    { rewrite process_skip in Hscan by done.
      destruct (IH _ Hscan) as (Hnone & Hrest). split; [|done].
      by intros [?|?]%elem_of_cons. }
    destruct (process st (Some p)) as [st1|e] eqn:Hprocess;
      [|discriminate Hscan].
    assert (run_ok (slice 5 1 p)) as Hok.
    { destruct (run_ok_cases (slice 5 1 p)) as [Hok|Hbad]; [done|].
      destruct (process_stop st p Hid Hbad) as [e He]. congruence. }
    destruct (process_run st p Hid Hok) as (d & Hd & Hentry).
    rewrite Hd in Hprocess. injection Hprocess as <-.
    destruct (IH _ Hscan) as (Hnone & Hoks & new & Hnew & ->).
    split; [by intros [?|?]%elem_of_cons|].
    split; [by constructor|]. exists (d :: new). split; [by constructor|].
    simpl. rewrite <-(assoc_L (++)). f_equal.
    destruct new as [|d' new]; [done|]. rewrite last_cons_cons.
    destruct (last (d' :: new)) eqn:Hlast; [done|].
    by apply last_None in Hlast.
  - discriminate Hscan.
Qed.

Lemma scan_total (listing : list (option text)) (st : state) :
  None ∉ listing →
  Forall run_ok (run_ids listing) → ∃ st', scan st listing = Returns st'.
Proof.
  revert st. induction listing as [|[p|] listing IH]; intros st Hnone Hoks.
  - by eexists.
  - apply not_elem_of_cons in Hnone as [_ Hnone]. cbn [RestoreHistory.scan].
    rewrite run_ids_cons in Hoks. case_decide as Hid.
    + rewrite process_skip by done. by apply IH.
    + apply Forall_cons in Hoks as [Hok Hoks].
      destruct (process_run st p Hid Hok) as (d & -> & _). by apply IH.
  - destruct Hnone. left.
Qed.

(** [latest.json] gets the last entry of [history.json], and [null]
    exactly when the listing names no run but [latest]. *)
Theorem latest_is_last_of_history
    (listing : list (option text)) (latest : option run_data)
    (history : list run_data) :
  main listing = Returns (latest, history) →
  latest = last history
  ∧ length history = length (run_ids listing)
  ∧ (latest = None ↔ run_ids listing = []).
Proof.
  intros Hmain. apply scan_returns in Hmain as (_ & _ & new & Hnew & Heq).
  simpl in Heq. injection Heq as -> ->.
  pose proof (Forall2_length _ _ _ Hnew) as Hlen.
  split_and!.
  - by destruct (last new).
  - done.
  - destruct Hnew as [|id d ids new Hentry Hnew]; [done|].
    split; [|done]. intros Hnone. exfalso. revert Hnone.
    destruct (last (d :: new)) eqn:Hlast; [done|].
    by apply last_None in Hlast.
Qed.

(** The script gets to write its two files exactly when the paginator
    yields no [None] (every page has common prefixes) and, for every run
    of the listing, S3 raises nothing but [ClientError] and the run id
    parses as a time.  One run directory with another kind of name stops
    it before anything is written, and so does an empty bucket, for which
    the first thing yielded is [None] and the script raises
    [AttributeError]. *)
Theorem main_returns_iff (listing : list (option text)) :
  ((∃ files, main listing = Returns files)
   ↔ (None ∉ listing) ∧ Forall run_ok (run_ids listing))
  ∧ main (None :: listing) = Raises AttributeError.
Proof.
  split; [split|done].
  - intros [files Hmain]. by apply scan_returns in Hmain as (Hnone & Hoks & _).
  - intros [Hnone Hoks]. by apply scan_total.
Qed.

(** The history has one entry per run of the listing, in the order
    of the listing and none for [latest]; an entry has distinct keys, the
    run id, the URL of the archive, the start time as [strftime] gives it,
    and the URL of each statistics file exactly when S3 has the file. *)
Theorem history_entries
    (listing : list (option text)) (latest : option run_data)
    (history : list run_data) :
  main listing = Returns (latest, history) →
  Forall2 entry_of (run_ids listing) history
  ∧ get_field "run_id" <$> history = Some <$> run_ids listing
  ∧ lit "latest" ∉ run_ids listing.
Proof.
  intros Hmain. apply scan_returns in Hmain as (_ & _ & new & Hnew & Heq).
  simpl in Heq. injection Heq as -> ->. split_and!.
  - done.
  - induction Hnew as [|id d ids new Hentry Hnew IH]; [done|].
    rewrite !fmap_cons, IH. f_equal. by destruct Hentry as (_ & -> & _).
  - unfold run_ids. rewrite list_elem_of_filter. by intros [Hne _].
Qed.

End restore_history_properties.

(** * Witnesses for the properties of the history script *)

Lemma latest_is_last_of_history_witness :
  ∃ latest history,
    RestoreHistory.main example_head_object example_strptime example_strftime
      example_listing = RestoreHistory.Returns (latest, history)
    ∧ latest = last history ∧ length history = 2%nat.
Proof.
  destruct (RestoreHistory.main example_head_object example_strptime
              example_strftime example_listing) as [[latest history]|e]
    eqn:Hmain; [|by vm_compute in Hmain].
  exists latest, history. split; [done|].
  destruct (latest_is_last_of_history _ _ _ _ _ _ Hmain)
    as (Hlast & Hlen & _).
  split; [done|]. rewrite Hlen. by vm_compute.
Defined.

Lemma main_returns_iff_witness :
  (∃ files,
     RestoreHistory.main example_head_object example_strptime
       example_strftime example_listing = RestoreHistory.Returns files)
  ∧ (¬ ∃ files,
         RestoreHistory.main example_head_object example_strptime
           example_strftime
           (example_listing ++ [Some (PyStr.lit "runs/test/")])
         = RestoreHistory.Returns files)
  ∧ RestoreHistory.main example_head_object example_strptime
      example_strftime [None]
    = RestoreHistory.Raises RestoreHistory.AttributeError.
Proof.
  split_and!.
  - apply main_returns_iff. split.
    + apply (bool_decide_unpack _). by vm_compute.
    + assert (RestoreHistory.run_ids example_listing
              = [PyStr.lit "2022-11-19-13-32-11";
                 PyStr.lit "2022-11-26-13-32-07"]) as -> by by vm_compute.
      repeat (apply Forall_cons; split;
              [split_and!; [by vm_compute|by vm_compute|by eexists]|]).
      apply Forall_nil_2.
  - intros Hret. apply main_returns_iff in Hret as [_ Hret].
    assert (RestoreHistory.run_ids
              (example_listing ++ [Some (PyStr.lit "runs/test/")])
            = [PyStr.lit "2022-11-19-13-32-11";
               PyStr.lit "2022-11-26-13-32-07"; PyStr.lit "test"]) as Hids
      by by vm_compute.
    rewrite Hids in Hret.
    apply Forall_cons in Hret as [_ Hret].
    apply Forall_cons in Hret as [_ Hret].
    apply Forall_cons in Hret as [(_ & _ & [t Ht]) _]. by vm_compute in Ht.
  - apply main_returns_iff.
Defined.

Lemma history_entries_witness :
  ∃ latest first second,
    RestoreHistory.main example_head_object example_strptime example_strftime
      example_listing = RestoreHistory.Returns (latest, [first; second])
    ∧ first.*1 = ["run_id"; "output_url"; "stats_url"; "start_time"]
    ∧ RestoreHistory.get_field "run_id" second
      = Some (PyStr.lit "2022-11-26-13-32-07")
    ∧ RestoreHistory.get_field "stats_url" second = None.
Proof.
  destruct (RestoreHistory.main example_head_object example_strptime
              example_strftime example_listing) as [[latest history]|e]
    eqn:Hmain; [|by vm_compute in Hmain].
  destruct (history_entries _ _ _ _ _ _ Hmain) as (Hentries & Hids & _).
  vm_compute in Hmain. injection Hmain as <- <-.
  eexists _, _, _. split; [reflexivity|]. split; [reflexivity|].
  assert (RestoreHistory.run_ids example_listing
          = [PyStr.lit "2022-11-19-13-32-11";
             PyStr.lit "2022-11-26-13-32-07"]) as Hruns by by vm_compute.
  rewrite Hruns in Hentries, Hids.
  apply Forall2_cons_1 in Hentries as [_ Hentries].
  apply Forall2_cons_1 in Hentries as [(_ & _ & _ & Hstats & _) _].
  pose proof (f_equal (λ l, default None (l !! 1%nat)) Hids) as Hsecond.
  split; [exact Hsecond|exact Hstats].
Defined.
